(** * experiment-files: the field tally tool of [main.js]

    A shallow embedding of [main.js] and the properties of its
    specification.  The script reads a key file and an experiment request,
    posts one search to the host ([cartQuery]), flattens the files of the
    returned experiments and counts, per requested dotted field path, how
    often each value occurs ([getObjectFieldValue], [filePropCountPromise]).

    Conventions of the embedding:
    - a JavaScript string is the list of its UTF-16 code units ([list N]);
    - a JavaScript value is what [JSON.parse] can produce, plus [undefined];
    - an object is the finite map of its own properties, and so is the
      tally table the script builds.  What an object inherits from
      [Object.prototype] is left out: the names [constructor], [toString],
      [valueOf], [__proto__] and the like are taken to occur neither as
      property names of a record, nor as field names, nor as tallied
      values;
    - numbers are kept abstract behind the interface [JSNumber]: nothing the
      script does depends on floating point arithmetic.  The counts of the
      tally table are natural numbers;
    - a thrown exception, or a rejected promise, is the [Throw] case of
      [result];
    - the file system, [JSON.parse], [fetch] and [JSON.stringify] are
      parameters, and a run of the script is given with the trace of what
      it does to the outside.  The report of lines 175-182 is not
      embedded: it prints in the order [Object.keys] enumerates, the order
      of insertion, which a finite map does not keep. *)

From stdpp Require Import gmap list fin_maps.
From Stdlib Require Import NArith String Ascii.
From Stdlib Require DecimalFacts DecimalPos DecimalN.

Set Warnings "-register-all".

(** ** Strings *)

(** [ustring]: the code units of a JavaScript string. *)
Abbreviation ustring := (list N) (only parsing).

(** A string literal of the source, as code units. *)
Definition lit (s : string) : ustring :=
  List.map N_of_ascii (list_ascii_of_string s).
Arguments lit : simpl never.

(** [Array.prototype.join]. *)
Fixpoint join (sep : ustring) (l : list ustring) : ustring :=
  match l with
  | [] => []
  | [x] => x
  | x :: xs => x ++ sep ++ join sep xs
  end.

(** [String.prototype.split] with a one-unit separator: the empty string
    gives one empty part, and every separator starts a new part. *)
Fixpoint split (sep : N) (s : ustring) : list ustring :=
  match s with
  | [] => [[]]
  | c :: rest =>
      if (c =? sep)%N then [] :: split sep rest
      else match split sep rest with
           | [] => [[c]]
           | p :: ps => (c :: p) :: ps
           end
  end.

Definition dot : N := 46.

(** A property name that is a canonical array index: ["0"], or decimal
    digits that do not start with ["0"]. *)
Definition is_digit (c : N) : bool := (48 <=? c)%N && (c <=? 57)%N.

Definition decimal (s : ustring) : N :=
  fold_left (fun acc c => (10 * acc + (c - 48))%N) s 0%N.

Definition parse_index (s : ustring) : option nat :=
  match s with
  | [] => None
  | c :: rest =>
      if forallb is_digit s && (negb (c =? 48)%N || bool_decide (rest = []))
      then Some (N.to_nat (decimal s))
      else None
  end.

(** ** Exceptions *)

(** The exceptions the script can meet: the two the runtime throws, and the
    plain [Error] of a failed request. *)
Inductive error := TypeError | URIError | Error.

Inductive result (A : Type) :=
| Ok (a : A)
| Throw (e : error).
Arguments Ok {A} a.
Arguments Throw {A} e.

Global Instance result_ret : MRet result := fun _ a => Ok a.
Global Instance result_bind : MBind result := fun _ _ f m =>
  match m with
  | Ok a => f a
  | Throw e => Throw e
  end.

(** [Array.prototype.forEach] with a callback that updates a state and may
    throw. *)
Fixpoint forEach {A S} (l : list A) (body : A → S → result S) (s : S) : result S :=
  match l with
  | [] => Ok s
  | x :: xs => s' ← body x s; forEach xs body s'
  end.

(** [Array.prototype.reduce] with an initial value and a callback that may
    throw. *)
Fixpoint reduce {A B} (l : list A) (f : B → A → result B) (acc : B) : result B :=
  match l with
  | [] => Ok acc
  | x :: xs => acc' ← f acc x; reduce xs f acc'
  end.

(** ** The authorization string *)

Definition is_high_surrogate (c : N) : bool := (55296 <=? c)%N && (c <=? 56319)%N.
Definition is_low_surrogate (c : N) : bool := (56320 <=? c)%N && (c <=? 57343)%N.

(** The code point of a surrogate pair. *)
Definition surrogate_pair (hi lo : N) : N :=
  ((hi - 55296) * 1024 + (lo - 56320) + 65536)%N.

(** The UTF-8 octets of a code point. *)
Definition utf8 (cp : N) : list N :=
  if (cp <? 128)%N then [cp]
  else if (cp <? 2048)%N then [192 + cp / 64; 128 + cp mod 64]%N
  else if (cp <? 65536)%N then
    [224 + cp / 4096; 128 + (cp / 64) mod 64; 128 + cp mod 64]%N
  else
    [240 + cp / 262144; 128 + (cp / 4096) mod 64;
     128 + (cp / 64) mod 64; 128 + cp mod 64]%N.

(** The characters [encodeURIComponent] leaves alone: letters, digits and
    [- _ . ! ~ * ' ( )]. *)
Definition unescaped (c : N) : bool :=
  (65 <=? c)%N && (c <=? 90)%N || (97 <=? c)%N && (c <=? 122)%N
  || (48 <=? c)%N && (c <=? 57)%N
  || bool_decide (c ∈ [45; 95; 46; 33; 126; 42; 39; 40; 41]%N).

Definition hex_digit (n : N) : N := if (n <? 10)%N then (48 + n)%N else (55 + n)%N.

(** [%XX] for every octet. *)
Definition percent (octets : list N) : ustring :=
  octets ≫= (fun b => [37; hex_digit (b / 16); hex_digit (b mod 16)]%N).

(** [encodeURIComponent]: an unpaired surrogate throws a [URIError]. *)
Fixpoint encodeURIComponent (s : ustring) : result ustring :=
  match s with
  | [] => Ok []
  | c :: rest =>
      if unescaped c then e ← encodeURIComponent rest; Ok (c :: e)
      else if is_low_surrogate c then Throw URIError
      else if is_high_surrogate c then
        match rest with
        | d :: rest' =>
            if is_low_surrogate d then
              e ← encodeURIComponent rest';
              Ok (percent (utf8 (surrogate_pair c d)) ++ e)
            else Throw URIError
        | [] => Throw URIError
        end
      else e ← encodeURIComponent rest; Ok (percent (utf8 c) ++ e)
  end.

Definition hex_value (c : N) : option N :=
  if (48 <=? c)%N && (c <=? 57)%N then Some (c - 48)%N
  else if (65 <=? c)%N && (c <=? 70)%N then Some (c - 55)%N
  else if (97 <=? c)%N && (c <=? 102)%N then Some (c - 87)%N
  else None.

Definition hex_number (digits : ustring) : option N :=
  foldl (fun acc c => n ← acc; d ← hex_value c; Some (16 * n + d)%N) (Some 0%N) digits.

(** [unescape] at a [%] followed by [rest]: the code unit to append and how
    many units of [rest] it consumed ([%uXXXX], [%XX], or the [%] itself). *)
Definition unescape_at (rest : ustring) : N * nat :=
  let '(parsed, advance) :=
    if bool_decide (5 ≤ List.length rest) && bool_decide (head rest = Some 117%N)
    then (hex_number (take 4 (drop 1 rest)), 5)
    else if bool_decide (2 ≤ List.length rest) then (hex_number (take 2 rest), 2)
    else (None, 0) in
  match parsed with
  | Some n => (n, advance)
  | None => (37%N, 0)
  end.

Fixpoint unescape_from (skip : nat) (s : ustring) : ustring :=
  match s with
  | [] => []
  | c :: rest =>
      match skip with
      | S k => unescape_from k rest
      | 0 =>
          if (c =? 37)%N then
            let '(n, advance) := unescape_at rest in n :: unescape_from advance rest
          else c :: unescape_from 0 rest
      end
  end.

(** [unescape]. *)
Definition unescape (s : ustring) : ustring := unescape_from 0 s.

(** [Buffer.from(s)]: the octets of [s] in UTF-8, the default encoding; an
    unpaired surrogate becomes U+FFFD. *)
Fixpoint Buffer_from (s : ustring) : list N :=
  match s with
  | [] => []
  | c :: rest =>
      if is_high_surrogate c then
        match rest with
        | d :: rest' =>
            if is_low_surrogate d then utf8 (surrogate_pair c d) ++ Buffer_from rest'
            else utf8 65533 ++ Buffer_from rest
        | [] => utf8 65533
        end
      else if is_low_surrogate c then utf8 65533 ++ Buffer_from rest
      else utf8 c ++ Buffer_from rest
  end.

Definition base64_digit (n : N) : N :=
  if (n <? 26)%N then (65 + n)%N
  else if (n <? 52)%N then (71 + n)%N
  else if (n <? 62)%N then (n - 4)%N
  else if (n =? 62)%N then 43%N else 47%N.

(** [buffer.toString('base64')]. *)
Fixpoint base64 (octets : list N) : ustring :=
  match octets with
  | [] => []
  | [a] => [base64_digit (a / 4); base64_digit (a mod 4 * 16); 61; 61]%N
  | [a; b] =>
      [base64_digit (a / 4); base64_digit (a mod 4 * 16 + b / 16);
       base64_digit (b mod 16 * 4); 61]%N
  | a :: b :: c :: rest =>
      [base64_digit (a / 4); base64_digit (a mod 4 * 16 + b / 16);
       base64_digit (b mod 16 * 4 + c / 64); base64_digit (c mod 64)]%N
      ++ base64 rest
  end.

(** [keypairToAuth], lines 17-19. *)
Definition keypairToAuth (key secret : ustring) : result ustring :=
  escaped ← encodeURIComponent (key ++ lit ":" ++ secret);
  Ok (lit "Basic " ++ base64 (Buffer_from (unescape escaped))).

(** The authorization value in the words of the specification: [Basic ]
    and the base64 form of the octets of [key:secret]. *)
Definition basic_auth_spec (key secret : ustring) : ustring :=
  lit "Basic " ++ base64 (Buffer_from (key ++ lit ":" ++ secret)).

(** ** Numbers *)

(** What the script needs from the number type of the runtime. *)
Class JSNumber (number : Type) := {
  (** [ToBoolean]: false for [0], [-0] and [NaN]. *)
  number_truthy : number → bool;
  (** [Number::toString]. *)
  number_to_string : number → ustring;
  (** The number value of a length. *)
  number_of_nat : nat → number;
  (** [n > 0]. *)
  number_positive : number → bool;
  (** [StringToNumber]. *)
  string_to_number : ustring → number;
  number_positive_of_nat n : number_positive (number_of_nat n) = bool_decide (0 < n);
}.

(** ** Values *)

Inductive value (number : Type) :=
| VUndefined
| VNull
| VBool (b : bool)
| VNumber (n : number)
| VString (s : ustring)
| VArray (l : list (value number))
| VObject (props : gmap ustring (value number)).
Arguments VUndefined {number}.
Arguments VNull {number}.
Arguments VBool {number} b.
Arguments VNumber {number} n.
Arguments VString {number} s.
Arguments VArray {number} l.
Arguments VObject {number} props.

(** [filePropCounts], the tally table: field path, then value, then
    count. *)
Abbreviation table := (gmap ustring (gmap ustring nat)) (only parsing).

Section Script.
Context `{JSNumber number}.

Abbreviation value := (value number).

(** [ToBoolean]: what [if (v)] tests. *)
Definition truthy (v : value) : bool :=
  match v with
  | VUndefined | VNull => false
  | VBool b => b
  | VNumber n => number_truthy n
  | VString s => negb (bool_decide (s = []))
  | VArray _ | VObject _ => true
  end.

(** [ToString], which is also how a value becomes a property name.  An
    array is joined with commas, its [undefined] and [null] elements as
    empty strings. *)
Fixpoint to_string (v : value) : ustring :=
  match v with
  | VUndefined => lit "undefined"
  | VNull => lit "null"
  | VBool true => lit "true"
  | VBool false => lit "false"
  | VNumber n => number_to_string n
  | VString s => s
  | VArray l =>
      join (lit ",")
        (List.map (fun x => match x with
                            | VUndefined | VNull => []
                            | _ => to_string x
                            end) l)
  | VObject _ => lit "[object Object]"
  end.

(** [base[name]]: own properties only.  Reading a property of [undefined]
    or [null] throws a [TypeError]; the other primitives are read through
    their wrapper, where a string has its [length] and its indices. *)
Definition get (base : value) (name : ustring) : result value :=
  match base with
  | VUndefined | VNull => Throw TypeError
  | VBool _ | VNumber _ => Ok VUndefined
  | VString s =>
      if decide (name = lit "length") then Ok (VNumber (number_of_nat (List.length s)))
      else match parse_index name ≫= (s !!.) with
           | Some c => Ok (VString [c])
           | None => Ok VUndefined
           end
  | VArray l =>
      if decide (name = lit "length") then Ok (VNumber (number_of_nat (List.length l)))
      else Ok (default VUndefined (parse_index name ≫= (l !!.)))
  | VObject props => Ok (default VUndefined (props !! name))
  end.

(** ** The field path resolver *)

(** [getObjectFieldValue], lines 31-37. *)
Definition getObjectFieldValue (object : value) (field : ustring) : result value :=
  let parts := split dot field in
  if decide (List.length parts = 1) then get object field
  else reduce parts (fun partObject part => get partObject part) object.

(** ** The tally engine *)

(** Lines 155-168: count one more [fieldValue] under [field].  A count
    that is present is tested for truthiness, as the script does. *)
Definition record (field : ustring) (fieldValue : value)
    (filePropCounts : table) : table :=
  let key := to_string fieldValue in
  match filePropCounts !! field with
  | Some counts =>
      match counts !! key with
      | Some n =>
          if bool_decide (n ≠ 0)
          then <[field := <[key := n + 1]> counts]> filePropCounts
          else <[field := <[key := 1]> counts]> filePropCounts
      | None => <[field := <[key := 1]> counts]> filePropCounts
      end
  | None => <[field := {[key := 1]}]> filePropCounts
  end.

(** Lines 152-170: the body of the inner loop. *)
Definition countField (file : value) (field : ustring)
    (filePropCounts : table) : result table :=
  fieldValue ← getObjectFieldValue file field;
  if truthy fieldValue then Ok (record field fieldValue filePropCounts)
  else Ok filePropCounts.

(** Lines 150-172: every file, and for each file every field. *)
Definition tally (files : list value) (fileFields : list ustring) : result table :=
  forEach files (fun file filePropCounts =>
    forEach fileFields (countField file) filePropCounts) ∅.

(** *** Reading a tally table *)












(** ** Collecting the files of a search result *)

(** The strings a string iterator yields: one per code point. *)
Fixpoint code_points (s : ustring) : list ustring :=
  match s with
  | [] => []
  | c :: rest =>
      match rest with
      | d :: rest' =>
          if is_high_surrogate c && is_low_surrogate d
          then [c; d] :: code_points rest'
          else [c] :: code_points rest
      | [] => [[c]]
      end
  end.

(** [...v] in an argument list: only arrays and strings are iterable. *)
Definition spread (v : value) : result (list value) :=
  match v with
  | VArray l => Ok l
  | VString s => Ok (VString <$> code_points s)
  | _ => Throw TypeError
  end.

(** [v > 0]: the value is made a primitive, then a number. *)
Definition gt_zero (v : value) : bool :=
  match v with
  | VUndefined | VNull | VObject _ => false
  | VBool b => b
  | VNumber n => number_positive n
  | VString s => number_positive (string_to_number s)
  | VArray _ => number_positive (string_to_number (to_string v))
  end.

(** Lines 142-147.  [cartData['@graph']] throws when [cartData] is
    [undefined], and only an array has a [forEach] to call. *)
Definition collectFiles (cartData : value) : result (list value) :=
  graph ← get cartData (lit "@graph");
  match graph with
  | VArray experiments =>
      forEach experiments (fun experiment files =>
        experimentFiles ← get experiment (lit "files");
        if truthy experimentFiles then
          len ← get experimentFiles (lit "length");
          if gt_zero len then
            pushed ← spread experimentFiles; Ok (files ++ pushed)
          else Ok files
        else Ok files) []
  | _ => Throw TypeError
  end.

(** Lines 140-173: what [filePropCountPromise] settles to, given what
    [cartDataPromise] was fulfilled with. *)
Definition filePropCountPromise (cartData : value) (fileFields : list ustring)
    : result table :=
  files ← collectFiles cartData;
  tally files fileFields.

(** ** The search client *)

(** The arguments of [fetch]. *)
Record request := {
  url : ustring;
  method : ustring;
  headers : list (ustring * ustring);
  body : ustring;
}.

(** What [fetch] is fulfilled with: [response.ok], and what
    [response.json()] settles to. *)
Record response := {
  ok : bool;
  json : result value;
}.

Section Client.
(** The network and the serialiser belong to the runtime. *)
Variable fetch : request → result response.
Variable JSON_stringify : value → ustring.

(** Lines 51-62: the request [cartQuery] hands to [fetch]. *)
Definition cartQuery_request (experiments : value) (fields : list ustring)
    (host auth : ustring) : request :=
  let fieldQuery := join (lit "&") ((fun field => lit "field=files." ++ field) <$> fields) in
  {| url := host ++ lit "/search_elements/type=Experiment&" ++ fieldQuery
              ++ lit "&field=files.restricted&limit=all&filterresponse=off";
     method := lit "POST";
     headers := [(lit "Accept", lit "application/json");
                 (lit "Content-Type", lit "application/json");
                 (lit "Authorization", auth)];
     body := JSON_stringify (VObject {[lit "@id" := experiments]}) |}.

(** The request in the words of the specification: one [&field=files.]
    parameter for every requested field. *)
Definition search_request_spec (experiments : value) (fields : list ustring)
    (host auth : ustring) : request :=
  {| url := host ++ lit "/search_elements/type=Experiment"
              ++ List.concat ((fun field => lit "&field=files." ++ field) <$> fields)
              ++ lit "&field=files.restricted&limit=all&filterresponse=off";
     method := lit "POST";
     headers := [(lit "Accept", lit "application/json");
                 (lit "Content-Type", lit "application/json");
                 (lit "Authorization", auth)];
     body := JSON_stringify (VObject {[lit "@id" := experiments]}) |}.

(** Lines 50-72: the value [cartQuery]'s promise is fulfilled with, and
    the errors it logs.  The [catch] handler returns nothing. *)
Definition cartQuery (experiments : value) (fields : list ustring)
    (host auth : ustring) : value * list error :=
  let settled :=
    response ← fetch (cartQuery_request experiments fields host auth);
    if ok response then json response else Throw Error in
  match settled with
  | Ok cartData => (cartData, [])
  | Throw e => (VUndefined, [e])
  end.

End Client.

End Script.

(** ** A small number type for running the script

    Natural numbers and [NaN] are enough to run the script on examples;
    [StringToNumber] is only given on the empty string and on unsigned
    decimal integers. *)

Fixpoint uint_units (d : Decimal.uint) : ustring :=
  match d with
  | Decimal.Nil => []
  | Decimal.D0 d => 48%N :: uint_units d
  | Decimal.D1 d => 49%N :: uint_units d
  | Decimal.D2 d => 50%N :: uint_units d
  | Decimal.D3 d => 51%N :: uint_units d
  | Decimal.D4 d => 52%N :: uint_units d
  | Decimal.D5 d => 53%N :: uint_units d
  | Decimal.D6 d => 54%N :: uint_units d
  | Decimal.D7 d => 55%N :: uint_units d
  | Decimal.D8 d => 56%N :: uint_units d
  | Decimal.D9 d => 57%N :: uint_units d
  end.

#[refine] Global Instance natural_number : JSNumber (option N) := {|
  number_truthy n := match n with Some k => negb (k =? 0)%N | None => false end;
  number_to_string n :=
    match n with Some k => uint_units (N.to_uint k) | None => lit "NaN" end;
  number_of_nat n := Some (N.of_nat n);
  number_positive n := match n with Some k => (0 <? k)%N | None => false end;
  string_to_number s := if forallb is_digit s then Some (decimal s) else None;
|}.
Proof.
  intros n. destruct n as [|n]; [done|].
  rewrite bool_decide_true by lia. apply N.ltb_lt. lia.
Defined.

(** ** Property names of array elements *)

(** The decimal form of an index, as a property name. *)
Definition index_name (i : nat) : ustring := uint_units (N.to_uint (N.of_nat i)).

(** ** Well-formed strings and base64 text *)

(** Every surrogate of the string is part of a pair: a high surrogate is
    followed by a low one, and a low one follows a high one. *)
Fixpoint well_formed (s : ustring) : bool :=
  match s with
  | [] => true
  | c :: rest =>
      if is_high_surrogate c then
        match rest with
        | d :: rest' => is_low_surrogate d && well_formed rest'
        | [] => false
        end
      else negb (is_low_surrogate c) && well_formed rest
  end.

(** A character of base64 text: a letter, a digit, [+], [/] or the
    padding [=]. *)
Definition base64_unit (c : N) : bool :=
  (65 <=? c)%N && (c <=? 90)%N || (97 <=? c)%N && (c <=? 122)%N
  || (48 <=? c)%N && (c <=? 57)%N
  || bool_decide (c ∈ [43; 47; 61]%N).

(** The number a base64 digit stands for. *)
Definition base64_value (c : N) : option N :=
  if (65 <=? c)%N && (c <=? 90)%N then Some (c - 65)%N
  else if (97 <=? c)%N && (c <=? 122)%N then Some (c - 71)%N
  else if (48 <=? c)%N && (c <=? 57)%N then Some (c + 4)%N
  else if (c =? 43)%N then Some 62%N
  else if (c =? 47)%N then Some 63%N
  else None.

(** ** The shape of a search result *)

Section Shapes.
Context `{JSNumber number}.

(** The files an experiment record lists: the array under [files], if it
    has one. *)
Definition listed_files (experiment : value number) : list (value number) :=
  match experiment with
  | VObject props =>
      match props !! lit "files" with
      | Some (VArray l) => l
      | _ => []
      end
  | _ => []
  end.

(** An experiment as the host sends it: a record whose [files], when
    present, is an array. *)
Definition experiment_record (experiment : value number) : Prop :=
  ∃ props, experiment = VObject props
    ∧ (props !! lit "files" = None ∨ ∃ l, props !! lit "files" = Some (VArray l)).

End Shapes.

(** ** The run of the script *)

(** What a run does to the outside, in order: the files it reads, the
    requests it makes, the errors it logs. *)
Inductive event :=
| ReadFile (path : ustring)
| Fetch (r : request)
| LogError (e : error).

(** A step of the run: what it did to the outside, and what it settled
    to. *)
Record io (A : Type) := IO {
  trace : list event;
  outcome : result A;
}.
Arguments IO {A} trace outcome.
Arguments trace {A} _.
Arguments outcome {A} _.

Global Instance io_ret : MRet io := fun _ a => IO [] (Ok a).
Global Instance io_bind : MBind io := fun _ _ f m =>
  match outcome m with
  | Ok a => IO (trace m ++ trace (f a)) (outcome (f a))
  | Throw e => IO (trace m) (Throw e)
  end.

(** A step that only computes. *)
Definition settle {A} (r : result A) : io A := IO [] r.

(** The options of the command line, lines 121-126. *)
Record program := {
  program_key : ustring;
  program_keyfile : ustring;
  program_experiments : ustring;
}.

(** The options when the command line gives none. *)
Definition default_program : program :=
  {| program_key := lit "localhost";
     program_keyfile := lit "keypairs.json";
     program_experiments := lit "experiments.json" |}.

(** The arguments of the call of [cartQuery] on line 137. *)
Record arguments {number : Type} := {
  arg_experiments : value number;
  arg_fields : value number;
  arg_server : value number;
  arg_auth : ustring;
}.
Arguments arguments number : clear implicits.

Section Run.
Context `{JSNumber number}.
(** The file system, the parser, the network and the serialiser belong to
    the runtime. *)
Variable fs_readFile : ustring → result ustring.
Variable JSON_parse : ustring → result (value number).
Variable fetch : request → result (response (number:=number)).
Variable JSON_stringify : value number → ustring.

(** [readFile], lines 82-92. *)
Definition readFile (path : ustring) : io ustring :=
  IO [ReadFile path] (fs_readFile path).

(** [readKeyfile], lines 102-105. *)
Definition readKeyfile (keyfile : ustring) : io (value number) :=
  results ← readFile keyfile;
  settle (JSON_parse results).

(** [readExperimentsFile], lines 115-118. *)
Definition readExperimentsFile (experimentFile : ustring) : io (value number) :=
  results ← readFile experimentFile;
  settle (JSON_parse results).

(** The call of [cartQuery] on line 137, with the values the files hold:
    [fields.map] needs an array, and the template literals take the
    string forms of the fields and of the host. *)
Definition cartQuery_call (experiments fields host : value number) (auth : ustring)
    : io (value number) :=
  match fields with
  | VArray l =>
      let names := to_string <$> l in
      let settled :=
        cartQuery fetch JSON_stringify experiments names (to_string host) auth in
      IO (Fetch (cartQuery_request JSON_stringify experiments names (to_string host) auth)
          :: (LogError <$> settled.2))
         (Ok settled.1)
  | _ => settle (Throw TypeError)
  end.

(** Lines 135-137: what the second callback reads from the two files and
    computes before it calls [cartQuery], in the order of the source. *)
Definition cartQuery_arguments (keyFileData experimentInfo : value number)
    (key : ustring) : result (arguments number) :=
  entry ← get keyFileData key;
  keyValue ← get entry (lit "key");
  entry ← get keyFileData key;
  secret ← get entry (lit "secret");
  auth ← keypairToAuth (to_string keyValue) (to_string secret);
  fileFields ← get experimentInfo (lit "fields");
  experiments ← get experimentInfo (lit "experiments");
  fields ← get experimentInfo (lit "fields");
  entry ← get keyFileData key;
  server ← get entry (lit "server");
  Ok {| arg_experiments := experiments; arg_fields := fields;
        arg_server := server; arg_auth := auth |}.

(** [cartDataPromise], lines 129-138: what it is fulfilled with, and the
    [fileFields] it leaves for the next stage. *)
Definition cartDataPromise (options : program) : io (value number * value number) :=
  keyFileData ← readKeyfile (program_keyfile options);
  experimentInfo ← readExperimentsFile (program_experiments options);
  args ← settle (cartQuery_arguments keyFileData experimentInfo (program_key options));
  cartData ← cartQuery_call (arg_experiments args) (arg_fields args)
                (arg_server args) (arg_auth args);
  mret (cartData, arg_fields args).

(** Lines 152-170 for a field as the experiment file holds it:
    [field.split] needs a string. *)
Definition countValueField (file field : value number) (filePropCounts : table)
    : result table :=
  match field with
  | VString name => countField file name filePropCounts
  | _ => Throw TypeError
  end.

(** Lines 140-173 with the [fileFields] of the experiment file:
    [fileFields.forEach] needs an array. *)
Definition filePropCounts_of (cartData fileFields : value number) : result table :=
  files ← collectFiles cartData;
  forEach files (fun file filePropCounts =>
    match fileFields with
    | VArray l => forEach l (countValueField file) filePropCounts
    | _ => Throw TypeError
    end) ∅.

(** The run up to the tally table, lines 129-173. *)
Definition run (options : program) : io table :=
  stage ← cartDataPromise options;
  settle (filePropCounts_of stage.1 stage.2).

End Run.

(** ** A sample run

    A key file, an experiment file and a search result to run the script
    on, with the number type [natural_number]. *)

Definition sample_keyFileData : value (option N) :=
  VObject {[lit "localhost" :=
    VObject {[lit "key" := VString (lit "user");
              lit "secret" := VString (lit "pass");
              lit "server" := VString (lit "http://localhost:6543")]}]}.

Definition sample_experimentInfo : value (option N) :=
  VObject {[lit "experiments" := VArray [VString (lit "/experiments/ENCSR000AAA/")];
            lit "fields" := VArray [VString (lit "file_format");
                                    VString (lit "lab.title")]]}.

Definition sample_fs (path : ustring) : result ustring :=
  if decide (path = lit "keypairs.json") then Ok (lit "keys")
  else if decide (path = lit "experiments.json") then Ok (lit "request")
  else Throw Error.

Definition sample_parse (text : ustring) : result (value (option N)) :=
  if decide (text = lit "keys") then Ok sample_keyFileData
  else if decide (text = lit "request") then Ok sample_experimentInfo
  else Throw Error.

Definition sample_experiments : list (value (option N)) :=
  [VObject {[lit "files" :=
     VArray [VObject {[lit "file_format" := VString (lit "bam");
                       lit "lab" := VObject {[lit "title" := VString (lit "A")]}]};
             VObject {[lit "file_format" := VString (lit "bam");
                       lit "lab" := VObject {[lit "title" := VString (lit "B")]}]}]]};
   VObject ∅;
   VObject {[lit "files" :=
     VArray [VObject {[lit "file_format" := VString (lit "fastq");
                       lit "lab" := VObject {[lit "title" := VString (lit "A")]}]}]]}].

Definition sample_cartData : value (option N) :=
  VObject {[lit "@graph" := VArray sample_experiments]}.

Definition sample_fetch (r : request) : result (response (number:=option N)) :=
  Ok {| ok := true; json := Ok sample_cartData |}.

Definition failing_fetch (r : request) : result (response (number:=option N)) :=
  Ok {| ok := false; json := Ok VNull |}.

Definition sample_stringify (v : value (option N)) : ustring := lit "{}".

(** * Properties *)

(** ** Splitting a field path *)

Lemma split_not_nil sep s : split sep s ≠ [].
Proof. destruct s as [|c s]; simpl; [done|]. by repeat case_match. Qed.

Lemma split_no_separator sep s : sep ∉ s → split sep s = [s].
Proof.
  induction s as [|c s IH]; intros Hs; simpl; [done|].
  apply not_elem_of_cons in Hs as [Hc Hs].
  rewrite (proj2 (N.eqb_neq c sep)) by done.
  by rewrite IH.
Qed.

Lemma split_one_part sep s : List.length (split sep s) = 1 → sep ∉ s.
Proof.
  induction s as [|c s IH]; simpl; [intros _; apply not_elem_of_nil|].
  destruct (N.eqb_spec c sep) as [->|Hc].
  - simpl. pose proof (split_not_nil sep s). destruct (split sep s); naive_solver.
  - destruct (split sep s) as [|p ps] eqn:Hsplit; simpl in *.
    + by destruct (split_not_nil sep s).
    + intros Hlen. apply not_elem_of_cons. auto.
Qed.

(** ** The authorization string *)

(** A property of the numbers below a bound can be checked one by one. *)
Lemma below_cases (P : N → Prop) (bound : nat) :
  Forall P (N.of_nat <$> seq 0 bound) → ∀ n, (n < N.of_nat bound)%N → P n.
Proof.
  intros HP n Hn. rewrite Forall_forall in HP. apply HP.
  apply list_elem_of_fmap. exists (N.to_nat n). split; [lia|].
  apply elem_of_seq. lia.
Qed.

Lemma hex_value_hex_digit n : (n < 16)%N → hex_value (hex_digit n) = Some n.
Proof.
  revert n. apply (below_cases _ 16).
  eapply bool_decide_unpack. vm_compute. exact I.
Qed.

Lemma hex_digit_not_u n : (n < 16)%N → hex_digit n ≠ 117%N.
Proof.
  revert n. apply (below_cases _ 16).
  eapply bool_decide_unpack. vm_compute. exact I.
Qed.

(** [unescape] reads [%XX] back as the octet it stands for. *)
Lemma unescape_at_octet b rest :
  (b < 256)%N →
  unescape_at (hex_digit (b / 16) :: hex_digit (b mod 16) :: rest) = (b, 2).
Proof.
  intros Hb. unfold unescape_at.
  assert (b / 16 < 16)%N as Hhi by (apply N.Div0.div_lt_upper_bound; lia).
  assert (b mod 16 < 16)%N as Hlo by (apply N.mod_upper_bound; lia).
  rewrite (bool_decide_false (head _ = _))
    by (simpl; intros [= Hu]; by apply hex_digit_not_u in Hu).
  rewrite andb_false_r, bool_decide_true by (simpl; lia).
  cbn [take hex_number foldl]. rewrite !hex_value_hex_digit by done. simpl.
  do 2 f_equal. rewrite (N.div_mod b 16) at 3 by lia. lia.
Qed.

Lemma unescape_percent octets rest :
  Forall (fun b => (b < 256)%N) octets →
  unescape_from 0 (percent octets ++ rest) = octets ++ unescape_from 0 rest.
Proof.
  induction 1 as [|b octets Hb _ IH]; [done|].
  change (percent (b :: octets))
    with ([37; hex_digit (b / 16); hex_digit (b mod 16)]%N ++ percent octets).
  simpl. by rewrite unescape_at_octet, IH.
Qed.

Lemma utf8_octets cp :
  (cp < 1114112)%N → Forall (fun b => (b < 256)%N) (utf8 cp).
Proof.
  intros Hcp. unfold utf8.
  pose proof (N.mod_upper_bound cp 64).
  pose proof (N.mod_upper_bound (cp / 64) 64).
  pose proof (N.mod_upper_bound (cp / 4096) 64).
  repeat match goal with
         | |- context [(?a <? ?b)%N] => destruct (N.ltb_spec a b)
         end; repeat constructor; try lia.
  - assert (cp / 64 < 32)%N by (apply N.Div0.div_lt_upper_bound; lia). lia.
  - assert (cp / 4096 < 16)%N by (apply N.Div0.div_lt_upper_bound; lia). lia.
  - assert (cp / 262144 < 5)%N by (apply N.Div0.div_lt_upper_bound; lia). lia.
Qed.

Lemma surrogate_pair_bound hi lo :
  is_high_surrogate hi = true → is_low_surrogate lo = true →
  (surrogate_pair hi lo < 1114112)%N.
Proof.
  unfold is_high_surrogate, is_low_surrogate, surrogate_pair.
  rewrite !andb_true_iff, !N.leb_le. lia.
Qed.

Lemma unescaped_ascii c :
  unescaped c = true →
  (c < 128)%N ∧ c ≠ 37%N
  ∧ is_high_surrogate c = false ∧ is_low_surrogate c = false.
Proof.
  unfold unescaped, is_high_surrogate, is_low_surrogate.
  rewrite !orb_true_iff, !andb_true_iff, !N.leb_le, bool_decide_eq_true.
  rewrite !andb_false_iff, !N.leb_gt.
  intros [[[?|?]|?]|Hmark]; [lia..|].
  repeat (apply elem_of_cons in Hmark as [->|Hmark]; [lia|]).
  by apply elem_of_nil in Hmark.
Qed.

(** What [unescape(encodeURIComponent(s))] holds: the UTF-8 octets of [s],
    one code unit per octet. *)
Lemma unescape_encodeURIComponent s escaped :
  Forall (fun c => (c < 65536)%N) s →
  encodeURIComponent s = Ok escaped → unescape escaped = Buffer_from s.
Proof.
  unfold unescape. remember (List.length s) as n eqn:Hn.
  revert s escaped Hn. induction (lt_wf n) as [n _ IH].
  intros [|c rest] escaped -> Hunits; simpl; [by intros [= <-]|].
  apply Forall_cons in Hunits as [Hc Hrest].
  destruct (unescaped c) eqn:Hunescaped.
  { apply unescaped_ascii in Hunescaped as (Hascii & Hpercent & -> & ->).
    destruct (encodeURIComponent rest) as [escaped'|] eqn:Hescaped; simpl; [|done].
    intros [= <-]. simpl. rewrite (proj2 (N.eqb_neq c 37)) by done.
    unfold utf8. rewrite (proj2 (N.ltb_lt c 128)) by done. simpl.
    f_equal. eapply IH; [|done..]. simpl. lia. }
  destruct (is_low_surrogate c) eqn:Hlow; [done|].
  destruct (is_high_surrogate c) eqn:Hhigh.
  - destruct rest as [|d rest']; [done|].
    apply Forall_cons in Hrest as [Hd Hrest'].
    destruct (is_low_surrogate d) eqn:Hlow'; [|done].
    destruct (encodeURIComponent rest') as [escaped'|] eqn:Hescaped; simpl; [|done].
    intros [= <-]. rewrite unescape_percent
      by by apply utf8_octets, surrogate_pair_bound.
    f_equal. eapply IH; [|done..]. simpl. lia.
  - destruct (encodeURIComponent rest) as [escaped'|] eqn:Hescaped; simpl; [|done].
    intros [= <-]. rewrite unescape_percent by (apply utf8_octets; lia).
    f_equal. eapply IH; [|done..]. simpl. lia.
Qed.

(** Without an unpaired surrogate [encodeURIComponent] returns. *)
Lemma encodeURIComponent_ascii s :
  Forall (fun c => (c < 128)%N) s → ∃ escaped, encodeURIComponent s = Ok escaped.
Proof.
  induction 1 as [|c rest Hc _ [escaped' IH]]; simpl; [eauto|]. rewrite IH. simpl.
  assert (is_low_surrogate c = false ∧ is_high_surrogate c = false) as [-> ->].
  { unfold is_low_surrogate, is_high_surrogate.
    rewrite !andb_false_iff, !N.leb_gt. lia. }
  destruct (unescaped c); eauto.
Qed.

Lemma Buffer_from_ascii s : Forall (fun c => (c < 128)%N) s → Buffer_from s = s.
Proof.
  induction 1 as [|c rest Hc _ IH]; simpl; [done|]. rewrite IH.
  assert (is_low_surrogate c = false ∧ is_high_surrogate c = false) as [-> ->].
  { unfold is_low_surrogate, is_high_surrogate.
    rewrite !andb_false_iff, !N.leb_gt. lia. }
  unfold utf8. by rewrite (proj2 (N.ltb_lt c 128)).
Qed.

(** [keypairToAuth] encodes the octets of [key:secret] a second time
    before it takes their base64 form. *)
Lemma keypairToAuth_encodes_twice key secret auth :
  Forall (fun c => (c < 65536)%N) (key ++ lit ":" ++ secret) →
  keypairToAuth key secret = Ok auth →
  auth = lit "Basic " ++ base64 (Buffer_from (Buffer_from (key ++ lit ":" ++ secret))).
Proof.
  intros Hunits. unfold keypairToAuth.
  destruct (encodeURIComponent _) as [escaped|] eqn:Hescaped; simpl; [|done].
  intros [= <-]. by rewrite (unescape_encodeURIComponent _ _ Hunits Hescaped).
Qed.

(** For a key and a secret of ASCII characters the second encoding changes
    nothing, and the value is the one of the specification. *)
Lemma keypairToAuth_ascii key secret :
  Forall (fun c => (c < 128)%N) key → Forall (fun c => (c < 128)%N) secret →
  keypairToAuth key secret = Ok (basic_auth_spec key secret).
Proof.
  intros Hkey Hsecret.
  assert (Forall (fun c => (c < 128)%N) (key ++ lit ":" ++ secret)) as Hascii.
  { apply Forall_app. split; [done|]. apply Forall_app. split; [|done].
    repeat constructor. }
  destruct (encodeURIComponent_ascii _ Hascii) as [escaped Hescaped].
  unfold keypairToAuth, basic_auth_spec. rewrite Hescaped. cbn [mbind result_bind].
  assert (Forall (fun c => (c < 65536)%N) (key ++ lit ":" ++ secret)) as Hunits
    by (eapply Forall_impl; [exact Hascii|]; intros c Hc; simpl in Hc; lia).
  rewrite (unescape_encodeURIComponent _ _ Hunits Hescaped).
  by rewrite !(Buffer_from_ascii _ Hascii).
Qed.

(** C9.  A key outside ASCII is not encoded as the specification says.
    For the key [é] and the empty secret [keypairToAuth] returns
    [Basic w4PCqTo=], the base64 form of the octets [C3 83 C2 A9 3A],
    where the base64 form of [é:] is [w6k6], of its UTF-8 octets
    [C3 A9 3A] (and [6To=] if the string is read as Latin-1). *)
Theorem keypairToAuth_non_ascii :
  keypairToAuth [233%N] [] = Ok (lit "Basic w4PCqTo=")
  ∧ basic_auth_spec [233%N] [] = lit "Basic w6k6"
  ∧ Buffer_from (Buffer_from ([233%N] ++ lit ":")) = [195; 131; 194; 169; 58]%N
  ∧ Buffer_from ([233%N] ++ lit ":") = [195; 169; 58]%N
  ∧ base64 ([233%N] ++ lit ":") = lit "6To=".
Proof. repeat split; vm_compute; reflexivity. Qed.

(** ** Loops *)





Section ScriptProperties.
Context `{JSNumber number}.

Implicit Types (file object : value number) (field : ustring).
Implicit Types (files : list (value number)) (fields : list ustring).
Implicit Types (fieldValue : value number) (t : table).
Implicit Types (f k key : ustring) (counts : gmap ustring nat).

(** ** The field path resolver *)

Lemma reduce_one {A B} (f : B → A → result B) x acc :
  reduce [x] f acc = f acc x.
Proof. simpl. by destruct (f acc x). Qed.

(** Whatever the path, the resolver is the segment-by-segment descent. *)
Lemma getObjectFieldValue_descent object field :
  getObjectFieldValue object field
  = reduce (split dot field) (fun partObject part => get partObject part) object.
Proof.
  unfold getObjectFieldValue. case_decide as Hlen; [|done].
  by rewrite (split_no_separator _ _ (split_one_part _ _ Hlen)), reduce_one.
Qed.

(** C5.  For a field path without a dot the resolver takes the direct
    property lookup [object[field]], and that lookup returns what the
    descent over the parts of the path returns. *)
Theorem single_segment_lookup_is_descent object field :
  dot ∉ field →
  getObjectFieldValue object field = get object field
  ∧ get object field
    = reduce (split dot field) (fun partObject part => get partObject part) object.
Proof.
  intros Hdot. unfold getObjectFieldValue.
  rewrite (split_no_separator _ _ Hdot), reduce_one. by case_decide.
Qed.

(** Only [undefined] and [null] have no properties to read. *)
Lemma get_returns (base : value number) name :
  base ≠ VUndefined → base ≠ VNull → ∃ v, get base name = Ok v.
Proof.
  intros ??. destruct base; simpl; try done; eauto;
    repeat case_match; eauto.
Qed.

Lemma get_throws (base : value number) name e :
  get base name = Throw e → e = TypeError ∧ (base = VUndefined ∨ base = VNull).
Proof.
  destruct base; simpl; intros Hget; simplify_eq; auto;
    repeat case_match; simplify_eq.
Qed.

Lemma getObjectFieldValue_one_segment object field :
  dot ∉ field → getObjectFieldValue object field = get object field.
Proof.
  intros Hdot. unfold getObjectFieldValue.
  rewrite (split_no_separator _ _ Hdot). by case_decide.
Qed.



(** C1.  The resolver does throw.  On the file [{}] and the path [a.b],
    whose first segment is missing, it raises a [TypeError] where its
    documentation promises [undefined], and the tally engine run on that
    file raises it too. *)
Theorem missing_intermediate_segment_throws :
  getObjectFieldValue (VObject ∅ : value number) (lit "a.b") = Throw TypeError
  ∧ tally [VObject ∅ : value number] [lit "a.b"] = Throw TypeError.
Proof. split; vm_compute; reflexivity. Qed.

(** A missing last segment resolves to [undefined]. *)
Lemma getObjectFieldValue_own props field :
  dot ∉ field →
  getObjectFieldValue (VObject props) field = Ok (default VUndefined (props !! field)).
Proof. intros Hdot. by rewrite getObjectFieldValue_one_segment. Qed.

(** ** The tally engine *)








(** A reading of the table that grows by one with every recorded value of
    the field [f] that passes [test] grows, over the two loops, once per
    listing of [f] and per file that resolves [f] to such a value. *)
Section Readings.
Variable reading : table → nat.
Variable f : ustring.
Variable test : value number → bool.
Hypothesis reading_record : ∀ field fieldValue t,
  reading (record field fieldValue t)
  = reading t + (if bool_decide (field = f) && test fieldValue then 1 else 0).




End Readings.




(** *** What the table holds *)








Lemma countField_unfold file field t :
  countField file field t
  = match getObjectFieldValue file field with
    | Ok v => Ok (if truthy v then record field v t else t)
    | Throw e => Throw e
    end.
Proof.
  unfold countField. destruct (getObjectFieldValue file field) as [v|]; simpl; [|done].
  by destruct (truthy v).
Qed.

(** A path that resolves to a falsy value, [undefined] among them, leaves
    the table as it is. *)
Lemma countField_skips file field fieldValue t :
  getObjectFieldValue file field = Ok fieldValue → truthy fieldValue = false →
  countField file field t = Ok t.
Proof. intros Hres Hfalsy. by rewrite countField_unfold, Hres, Hfalsy. Qed.



(** *** The order of the files *)










(** *** Two runs of the engine *)

(** C6.  On the files [{restricted: true}], [{restricted: false}] and [{}]
    and the field [restricted] the engine returns the table with the one
    entry [restricted: {"true": 1}]: the value [true] is counted under its
    string form, [false] and the missing property are not counted. *)
Theorem tally_restricted :
  tally
    [VObject {[lit "restricted" := VBool true]};
     VObject {[lit "restricted" := VBool false]};
     (VObject ∅ : value number)]
    [lit "restricted"]
  = Ok {[lit "restricted" := {[lit "true" := 1]}]}.
Proof. vm_compute. reflexivity. Qed.

(** C7.  On the files [{a:{b:"x"}}], [{a:{b:"x"}}], [{a:{b:"y"}}] and
    [{a:{}}] and the field [a.b] the engine returns the table with the one
    entry [a.b: {"x": 2, "y": 1}]: the fourth file, where [b] is missing,
    is not counted. *)
Theorem tally_nested :
  tally
    [VObject {[lit "a" := VObject {[lit "b" := VString (lit "x")]}]};
     VObject {[lit "a" := VObject {[lit "b" := VString (lit "x")]}]};
     VObject {[lit "a" := VObject {[lit "b" := VString (lit "y")]}]};
     (VObject {[lit "a" := VObject ∅]} : value number)]
    [lit "a.b"]
  = Ok {[lit "a.b" := {[lit "x" := 2; lit "y" := 1]}]}.
Proof. vm_compute. reflexivity. Qed.

(** ** The search client *)

Section ClientProperties.
Variable fetch : request → result (response (number:=number)).
Variable JSON_stringify : value number → ustring.

Lemma join_parameters (g : ustring → ustring) fields :
  fields ≠ [] →
  lit "&" ++ join (lit "&") (g <$> fields)
  = List.concat ((fun field => lit "&" ++ g field) <$> fields).
Proof.
  induction fields as [|field fields IH]; intros Hne; [done|].
  destruct fields as [|field' fields].
  - simpl. by rewrite app_nil_r.
  - rewrite !fmap_cons. rewrite !fmap_cons in IH.
    rewrite concat_cons, <-IH by done.
    change (join ?sep (?x :: ?y :: ?l)) with (x ++ sep ++ join sep (y :: l)).
    by rewrite <-!app_assoc.
Qed.

(** C8.  For a request with at least one field, [cartQuery] hands [fetch]
    the request of the specification: a [POST] to
    [{host}/search_elements/type=Experiment&field=files.f1&...&field=files.fn&field=files.restricted&limit=all&filterresponse=off]
    with the three headers and the body [{"@id": experiments}], and what
    it returns is decided by the response to that request. *)
Theorem cartQuery_request_spec experiments fields host auth :
  fields ≠ [] →
  cartQuery_request JSON_stringify experiments fields host auth
  = search_request_spec JSON_stringify experiments fields host auth
  ∧ cartQuery fetch JSON_stringify experiments fields host auth
    = match
        response ← fetch (search_request_spec JSON_stringify experiments fields host auth);
        if ok response then json response else Throw Error
      with
      | Ok cartData => (cartData, [])
      | Throw e => (VUndefined, [e])
      end.
Proof.
  intros Hne.
  assert (cartQuery_request JSON_stringify experiments fields host auth
          = search_request_spec JSON_stringify experiments fields host auth) as Hreq.
  { unfold cartQuery_request, search_request_spec. f_equal. f_equal.
    change (lit "/search_elements/type=Experiment&")
      with (lit "/search_elements/type=Experiment" ++ lit "&").
    rewrite <-!app_assoc. f_equal. rewrite !app_assoc. f_equal.
    by rewrite (join_parameters (fun field => lit "field=files." ++ field)). }
  split; [done|]. unfold cartQuery. by rewrite Hreq.
Qed.

(** C2.  A failed search is turned into [undefined], and the tally stage
    then throws.  When [fetch] is rejected or its response is not OK,
    [cartQuery] is fulfilled with [undefined] after logging one error;
    [filePropCountPromise] on that value is rejected with the [TypeError]
    of [cartData['@graph']] and returns no table. *)
Theorem failed_search_rejects_tally experiments fields host auth fileFields :
  (∀ response,
     fetch (cartQuery_request JSON_stringify experiments fields host auth) = Ok response →
     ok response = false) →
  (∃ e, cartQuery fetch JSON_stringify experiments fields host auth = (VUndefined, [e]))
  ∧ filePropCountPromise
      (cartQuery fetch JSON_stringify experiments fields host auth).1 fileFields
    = Throw TypeError.
Proof.
  intros Hfailed. unfold cartQuery.
  destruct (fetch _) as [response|e]; simpl.
  - rewrite (Hfailed response) by done. simpl. eauto.
  - eauto.
Qed.

End ClientProperties.

End ScriptProperties.

(** * The properties on concrete runs

    The runs below use the number type [natural_number]. *)

Abbreviation jsvalue := (value (option N)) (only parsing).

Lemma single_segment_lookup_is_descent_witness :
  let object : jsvalue := VObject {[lit "restricted" := VBool true]} in
  (dot ∉ lit "restricted")
  ∧ getObjectFieldValue object (lit "restricted") = get object (lit "restricted")
  ∧ get object (lit "restricted")
    = reduce (split dot (lit "restricted"))
        (fun partObject part => get partObject part) object.
Proof.
  assert (dot ∉ lit "restricted") as Hdot
    by (eapply bool_decide_unpack; vm_compute; exact I).
  split; [exact Hdot|].
  exact (single_segment_lookup_is_descent _ (lit "restricted") Hdot).
Defined.





(** Without a requested field the URL of [cartQuery] has an empty
    parameter, [&&], where the URL of the specification has none. *)
Lemma cartQuery_request_no_fields :
  let stringify : jsvalue → ustring := fun _ => [] in
  url (cartQuery_request stringify VNull [] (lit "https://host") (lit "auth"))
  = lit "https://host/search_elements/type=Experiment&&field=files.restricted&limit=all&filterresponse=off"
  ∧ url (search_request_spec stringify VNull [] (lit "https://host") (lit "auth"))
    = lit "https://host/search_elements/type=Experiment&field=files.restricted&limit=all&filterresponse=off"
  ∧ cartQuery_request stringify VNull [] (lit "https://host") (lit "auth")
    ≠ search_request_spec stringify VNull [] (lit "https://host") (lit "auth").
Proof.
  split; [vm_compute; reflexivity|]. split; [vm_compute; reflexivity|].
  intros Heq. apply (f_equal url) in Heq. vm_compute in Heq. discriminate.
Qed.

Lemma cartQuery_request_spec_witness :
  let stringify : jsvalue → ustring := fun _ => [] in
  let fetch : request → result (response (number:=option N)) :=
    fun _ => Ok {| ok := true; json := Ok VNull |} in
  let fields := [lit "file_format"; lit "lab.title"] in
  (fields ≠ [])
  ∧ cartQuery_request stringify VNull fields (lit "https://host") (lit "auth")
    = search_request_spec stringify VNull fields (lit "https://host") (lit "auth")
  ∧ cartQuery fetch stringify VNull fields (lit "https://host") (lit "auth")
    = match
        response ← fetch (search_request_spec stringify VNull fields
                            (lit "https://host") (lit "auth"));
        if ok response then json response else Throw Error
      with
      | Ok cartData => (cartData, [])
      | Throw e => (VUndefined, [e])
      end.
Proof.
  intros stringify fetch fields.
  assert (fields ≠ []) as Hfields by discriminate.
  split; [exact Hfields|].
  exact (cartQuery_request_spec fetch stringify VNull fields _ _ Hfields).
Defined.

Lemma failed_search_rejects_tally_witness :
  let stringify : jsvalue → ustring := fun _ => [] in
  let fetch : request → result (response (number:=option N)) :=
    fun _ => Ok {| ok := false; json := Ok VNull |} in
  (∀ response,
     fetch (cartQuery_request stringify VNull [lit "a"] (lit "https://host") (lit "auth"))
     = Ok response → ok response = false)
  ∧ (∃ e, cartQuery fetch stringify VNull [lit "a"] (lit "https://host") (lit "auth")
          = (VUndefined, [e]))
  ∧ filePropCountPromise
      (cartQuery fetch stringify VNull [lit "a"] (lit "https://host") (lit "auth")).1
      [lit "a"]
    = Throw TypeError.
Proof.
  intros stringify fetch.
  assert (∀ response,
     fetch (cartQuery_request stringify VNull [lit "a"] (lit "https://host") (lit "auth"))
     = Ok response → ok response = false) as Hfailed
    by (intros response [= <-]; reflexivity).
  split; [exact Hfailed|].
  exact (failed_search_rejects_tally fetch stringify VNull [lit "a"] _ _ [lit "a"] Hfailed).
Defined.

(** The files of a search result: experiments without files, or with an
    empty list of files, add nothing. *)
Example collectFiles_graph :
  collectFiles
    (VObject {[lit "@graph" :=
      VArray [VObject {[lit "files" := VArray [VObject ∅; VNull]]};
              VObject ∅;
              VObject {[lit "files" := VArray []]};
              VObject {[lit "files" := VArray [VBool true]]}]]} : jsvalue)
  = Ok [VObject ∅; VNull; VBool true].
Proof. vm_compute. reflexivity. Qed.

(** An empty search result gives the empty table. *)
Example filePropCountPromise_empty_graph :
  filePropCountPromise (VObject {[lit "@graph" := VArray []]} : jsvalue)
    [lit "file_format"]
  = Ok ∅.
Proof. vm_compute. reflexivity. Qed.

(** Values with the same string form share a count. *)
Example tally_same_string_form :
  tally
    [VObject {[lit "a" := VNumber (Some 1%N)]};
     (VObject {[lit "a" := VString (lit "1")]} : jsvalue)]
    [lit "a"]
  = Ok {[lit "a" := {[lit "1" := 2]}]}.
Proof. vm_compute. reflexivity. Qed.

Example keypairToAuth_user_pass :
  keypairToAuth (lit "user") (lit "pass") = Ok (lit "Basic dXNlcjpwYXNz").
Proof. vm_compute. reflexivity. Qed.

(** * Further properties of the resolver *)

Lemma split_app sep a b :
  split sep (a ++ sep :: b) = split sep a ++ split sep b.
Proof.
  induction a as [|c a IH]; simpl.
  - by rewrite N.eqb_refl.
  - rewrite IH. destruct (c =? sep)%N; [done|].
    pose proof (split_not_nil sep a). by destruct (split sep a).
Qed.

Lemma join_split sep s : join [sep] (split sep s) = s.
Proof.
  induction s as [|c s IH]; simpl; [done|].
  pose proof (split_not_nil sep s) as Hparts.
  destruct (N.eqb_spec c sep) as [->|Hc].
  - destruct (split sep s) as [|p ps]; [done|].
    change (join [sep] ([] :: p :: ps)) with (sep :: join [sep] (p :: ps)).
    by rewrite IH.
  - destruct (split sep s) as [|p ps]; [done|]. rewrite <-IH.
    by destruct ps.
Qed.

Lemma split_parts sep s : Forall (fun part => sep ∉ part) (split sep s).
Proof.
  induction s as [|c s IH]; simpl.
  - repeat constructor. apply not_elem_of_nil.
  - destruct (N.eqb_spec c sep) as [->|Hc].
    + constructor; [apply not_elem_of_nil|done].
    + destruct (split sep s) as [|p ps]; simpl.
      * repeat constructor. by intros [->|?%elem_of_nil]%elem_of_cons.
      * apply Forall_cons in IH as [Hp Hps]. constructor; [|done].
        apply not_elem_of_cons. auto.
Qed.

(** X1.  The parts [field.split('.')] gives hold no dot, and joined with
    dots they give the field path back. *)
Theorem split_dot_round_trip (field : ustring) :
  join [dot] (split dot field) = field
  ∧ Forall (fun part => dot ∉ part) (split dot field).
Proof. split; [apply join_split|apply split_parts]. Qed.

Lemma reduce_app {A B} (f : B → A → result B) (l1 l2 : list A) acc :
  reduce (l1 ++ l2) f acc = reduce l1 f acc ≫= reduce l2 f.
Proof.
  revert acc. induction l1 as [|x l1 IH]; intros acc; simpl; [done|].
  destruct (f acc x); simpl; [apply IH|done].
Qed.

Section ResolverProperties.
Context `{JSNumber number}.

Implicit Types (object v : value number) (field : ustring).

Lemma getObjectFieldValue_app object (a b : ustring) :
  getObjectFieldValue object (a ++ dot :: b)
  = getObjectFieldValue object a ≫= (fun v => getObjectFieldValue v b).
Proof.
  rewrite !getObjectFieldValue_descent, split_app, reduce_app.
  destruct (reduce (split dot a) _ object) as [v|]; simpl; [|done].
  by rewrite getObjectFieldValue_descent.
Qed.

(** X2.  Resolving [a.b] is resolving [a] and then resolving [b] in what
    [a] resolved to; if [a] throws, so does [a.b]. *)
Theorem getObjectFieldValue_compose object (a b : ustring) :
  getObjectFieldValue object (a ++ dot :: b)
  = getObjectFieldValue object a ≫= (fun v => getObjectFieldValue v b).
Proof. apply getObjectFieldValue_app. Qed.






(** *** Array elements *)

Lemma uint_units_digits d : forallb is_digit (uint_units d) = true.
Proof. induction d; simpl; auto. Qed.

Lemma decimal_acc d (acc : positive) :
  fold_left (fun acc c => (10 * acc + (c - 48))%N) (uint_units d) (N.pos acc)
  = N.pos (Pos.of_uint_acc d acc).
Proof.
  revert acc. induction d as [|d IH|d IH|d IH|d IH|d IH|d IH|d IH|d IH|d IH|d IH];
    intros acc; [done|..]; simpl; rewrite <-IH; f_equal; lia.
Qed.

Lemma decimal_uint d : decimal (uint_units d) = N.of_uint d.
Proof.
  unfold decimal, N.of_uint.
  induction d as [|d IH|d IH|d IH|d IH|d IH|d IH|d IH|d IH|d IH|d IH];
    [done|exact IH|..]; simpl; by rewrite <-decimal_acc.
Qed.

Lemma to_uint_leading (p : positive) :
  ∃ c rest, uint_units (Pos.to_uint p) = c :: rest ∧ c ≠ 48%N.
Proof.
  assert (Decimal.unorm (Pos.to_uint p) = Pos.to_uint p) as Hnorm.
  { rewrite <-DecimalPos.Unsigned.to_of, DecimalPos.Unsigned.of_to. done. }
  pose proof (DecimalPos.Unsigned.to_uint_nonzero p) as Hzero.
  pose proof (DecimalPos.Unsigned.to_uint_nonnil p) as Hnil.
  destruct (Pos.to_uint p) as [|d|d|d|d|d|d|d|d|d|d] eqn:Hd;
    [done| |simpl; eexists _, _; split; [done|lia]..].
  exfalso. rewrite DecimalFacts.unorm_D0 in Hnorm.
  assert (d ≠ Decimal.Nil) as Hd' by (by intros ->).
  pose proof (DecimalFacts.nb_digits_unorm d Hd') as Hlen.
  rewrite Hnorm in Hlen. simpl in Hlen. lia.
Qed.

Lemma parse_index_name i : parse_index (index_name i) = Some i.
Proof.
  unfold index_name. destruct (N.of_nat i) as [|p] eqn:Hi.
  - by replace i with 0 by lia.
  - destruct (to_uint_leading p) as (c & rest & Hunits & Hc).
    unfold parse_index. cbn [N.to_uint]. rewrite Hunits, <-Hunits.
    rewrite uint_units_digits, (proj2 (N.eqb_neq c 48)) by done. simpl.
    rewrite decimal_uint. change (Pos.to_uint p) with (N.to_uint (N.pos p)).
    rewrite DecimalN.Unsigned.of_to. f_equal. lia.
Qed.

Lemma index_name_digits i : forallb is_digit (index_name i) = true.
Proof. apply uint_units_digits. Qed.

Lemma digits_no_dot (s : ustring) : forallb is_digit s = true → dot ∉ s.
Proof.
  intros Hdigits Hdot. rewrite forallb_forall in Hdigits.
  by specialize (Hdigits dot (proj1 (list_elem_of_In _ _) Hdot)).
Qed.

Lemma get_array_element (l : list (value number)) i :
  get (VArray l) (index_name i) = Ok (default VUndefined (l !! i)).
Proof.
  simpl. rewrite parse_index_name. case_decide as Hname; [|done].
  pose proof (index_name_digits i) as Hdigits. by rewrite Hname in Hdigits.
Qed.

(** X6.  A path segment that is the decimal form of an index reads the
    element of an array at that index, and [undefined] past its end: the
    path [a.1] resolves to the second element of the array [a]. *)
Theorem getObjectFieldValue_array_element props (a : ustring) l i :
  dot ∉ a → props !! a = Some (VArray l) →
  getObjectFieldValue (VObject props : value number) (a ++ dot :: index_name i)
  = Ok (default VUndefined (l !! i)).
Proof.
  intros Hdot Hprops.
  rewrite getObjectFieldValue_app, getObjectFieldValue_own, Hprops by done. simpl.
  rewrite getObjectFieldValue_one_segment
    by apply digits_no_dot, index_name_digits.
  apply get_array_element.
Qed.

End ResolverProperties.

(** * Further properties of the tally engine *)

Lemma forEach_ext {A S} (l : list A) (body body' : A → S → result S) s :
  (∀ x s, body x s = body' x s) → forEach l body s = forEach l body' s.
Proof.
  intros Hbody. revert s. induction l as [|x l IH]; intros s; simpl; [done|].
  rewrite Hbody. destruct (body' x s); simpl; [apply IH|done].
Qed.



Section TallyProperties.
Context `{JSNumber number}.

Implicit Types (file : value number) (field f k : ustring).
Implicit Types (files : list (value number)) (fields : list ustring).
Implicit Types (fieldValue : value number) (t : table).


Lemma tally_no_fields files : tally files [] = Ok ∅.
Proof.
  unfold tally. generalize (∅ : table).
  induction files as [|file files IH]; intros t; simpl; [done|apply IH].
Qed.

(** X8.  Without requested fields the engine returns the empty table
    whatever the files are, and so it does without files. *)
Theorem tally_empty_input files fields :
  tally files [] = Ok ∅ ∧ tally [] fields = Ok ∅.
Proof. split; [apply tally_no_fields|done]. Qed.











End TallyProperties.

(** * Properties of the collection of files *)

Lemma forEach_reaches {A S} (l : list A) (body : A → S → result S) x e0 :
  x ∈ l → (∀ s, body x s = Throw e0) →
  (∀ y s e, body y s = Throw e → e = e0) →
  ∀ s, forEach l body s = Throw e0.
Proof.
  intros Hx Hthrows Honly. induction l as [|y l IH]; intros s; simpl.
  - by apply elem_of_nil in Hx.
  - destruct (body y s) as [s1|e] eqn:Hstep; simpl.
    + apply elem_of_cons in Hx as [->|Hx]; [by rewrite Hthrows in Hstep|by apply IH].
    + by rewrite (Honly _ _ _ Hstep).
Qed.

Section CollectProperties.
Context `{JSNumber number}.

Implicit Types (cartData experiment : value number).
Implicit Types (experiments files : list (value number)).

Lemma collect_experiment_records experiments files :
  Forall experiment_record experiments →
  forEach experiments (fun experiment files =>
    experimentFiles ← get experiment (lit "files");
    if truthy experimentFiles then
      len ← get experimentFiles (lit "length");
      if gt_zero len then
        pushed ← spread experimentFiles; Ok (files ++ pushed)
      else Ok files
    else Ok files) files
  = Ok (files ++ (experiments ≫= listed_files)).
Proof.
  intros Hrecords. revert files.
  induction Hrecords as [|experiment experiments (props & -> & Hfiles) _ IH];
    intros files.
  { simpl. by rewrite app_nil_r. }
  cbn [forEach]. rewrite bind_cons. cbn [get listed_files].
  destruct Hfiles as [->|[l ->]]; simpl.
  - apply IH.
  - rewrite number_positive_of_nat.
    destruct l as [|file l]; simpl; [apply IH|].
    rewrite IH. by rewrite <-app_assoc.
Qed.

Lemma collectFiles_records cartData experiments :
  get cartData (lit "@graph") = Ok (VArray experiments) →
  Forall experiment_record experiments →
  collectFiles cartData = Ok (experiments ≫= listed_files).
Proof.
  intros Hgraph Hrecords. unfold collectFiles. rewrite Hgraph. simpl.
  by rewrite collect_experiment_records.
Qed.

(** X14.  When the search result holds an array of experiment records
    under [@graph], the stage collects the files the experiments list, in
    the order of the experiments, experiments without files adding
    nothing, and tallies exactly those files. *)
Theorem filePropCountPromise_records cartData experiments fileFields :
  get cartData (lit "@graph") = Ok (VArray experiments) →
  Forall experiment_record experiments →
  collectFiles cartData = Ok (experiments ≫= listed_files)
  ∧ filePropCountPromise cartData fileFields
    = tally (experiments ≫= listed_files) fileFields.
Proof.
  intros Hgraph Hrecords. unfold filePropCountPromise.
  by rewrite (collectFiles_records _ _ Hgraph Hrecords).
Qed.

(** X15.  A search result whose [@graph] is not an array, a document
    without [@graph] among them, makes the stage throw a [TypeError]
    before any file is tallied. *)
Theorem filePropCountPromise_no_graph cartData graph fileFields :
  get cartData (lit "@graph") = Ok graph → (∀ l, graph ≠ VArray l) →
  filePropCountPromise cartData fileFields = Throw TypeError.
Proof.
  intros Hgraph Hnot. unfold filePropCountPromise, collectFiles.
  rewrite Hgraph. simpl. destruct graph; try done. by destruct (Hnot l).
Qed.

Lemma spread_throws (v : value number) e : spread v = Throw e → e = TypeError.
Proof. destruct v; simpl; by intros [= <-]. Qed.

(** X16.  One [null] among the experiments makes the stage throw a
    [TypeError], whatever the other experiments are. *)
Theorem filePropCountPromise_null_experiment cartData experiments fileFields :
  get cartData (lit "@graph") = Ok (VArray experiments) →
  VNull ∈ experiments →
  filePropCountPromise cartData fileFields = Throw TypeError.
Proof.
  intros Hgraph Hnull. unfold filePropCountPromise, collectFiles.
  rewrite Hgraph. simpl.
  rewrite (forEach_reaches experiments _ VNull TypeError); [done..|].
  intros experiment files e.
  destruct (get experiment (lit "files")) as [experimentFiles|e1] eqn:Hfiles; simpl;
    [|intros [= <-]; by apply get_throws in Hfiles as [-> _]].
  destruct (truthy experimentFiles); [|done].
  destruct (get experimentFiles (lit "length")) as [len|e2] eqn:Hlen; simpl;
    [|intros [= <-]; by apply get_throws in Hlen as [-> _]].
  destruct (gt_zero len); [|done].
  destruct (spread experimentFiles) as [pushed|e3] eqn:Hspread; simpl; [done|].
  intros [= <-]. by apply spread_throws in Hspread.
Qed.


End CollectProperties.

(** * Further properties of the authorization string *)

Lemma not_surrogate_ascii c :
  (c < 128)%N → is_high_surrogate c = false ∧ is_low_surrogate c = false.
Proof.
  unfold is_low_surrogate, is_high_surrogate.
  rewrite !andb_false_iff, !N.leb_gt. lia.
Qed.

(** [encodeURIComponent] returns on the well-formed strings, and throws a
    [URIError] on the others. *)
Lemma encodeURIComponent_well_formed s :
  match encodeURIComponent s with
  | Ok _ => well_formed s = true
  | Throw e => e = URIError ∧ well_formed s = false
  end.
Proof.
  remember (List.length s) as n eqn:Hn. revert s Hn.
  induction (lt_wf n) as [n _ IH]. intros [|c rest] ->; simpl; [done|].
  assert (match encodeURIComponent rest with
          | Ok _ => well_formed rest = true
          | Throw e => e = URIError ∧ well_formed rest = false
          end) as Hrest by (eapply IH; [|done]; simpl; lia).
  destruct (unescaped c) eqn:Hunescaped.
  { apply unescaped_ascii in Hunescaped as (_ & _ & -> & ->).
    destruct (encodeURIComponent rest); simpl; [done|].
    by destruct Hrest as [-> ->]. }
  destruct (is_low_surrogate c) eqn:Hlow.
  { assert (is_high_surrogate c = false) as ->; [|done].
    unfold is_low_surrogate, is_high_surrogate in *.
    apply andb_true_iff in Hlow as [?%N.leb_le ?%N.leb_le].
    apply andb_false_iff. right. apply N.leb_gt. lia. }
  destruct (is_high_surrogate c) eqn:Hhigh.
  - destruct rest as [|d rest']; [done|].
    destruct (is_low_surrogate d); [|done]. simpl.
    assert (match encodeURIComponent rest' with
            | Ok _ => well_formed rest' = true
            | Throw e => e = URIError ∧ well_formed rest' = false
            end) as Hrest' by (eapply IH; [|done]; simpl; lia).
    destruct (encodeURIComponent rest'); simpl; [done|].
    by destruct Hrest' as [-> ->].
  - simpl. destruct (encodeURIComponent rest); simpl; [done|].
    by destruct Hrest as [-> ->].
Qed.

(** X18.  For a key and a secret of ASCII characters [keypairToAuth]
    returns [Basic ] followed by the base64 form of the characters of
    [key:secret]. *)
Theorem keypairToAuth_ascii_credentials (key secret : ustring) :
  Forall (fun c => (c < 128)%N) key → Forall (fun c => (c < 128)%N) secret →
  keypairToAuth key secret
  = Ok (lit "Basic " ++ base64 (key ++ lit ":" ++ secret)).
Proof.
  intros Hkey Hsecret. rewrite keypairToAuth_ascii by done.
  unfold basic_auth_spec. rewrite Buffer_from_ascii; [done|].
  apply Forall_app. split; [done|]. apply Forall_app. split; [|done].
  repeat constructor.
Qed.

(** X19.  What [keypairToAuth] does on every string: when [key:secret] is
    well formed it returns [Basic ] and the base64 form of the UTF-8
    octets of [key:secret] encoded in UTF-8 once more, and when a
    surrogate of it is unpaired it throws a [URIError]. *)
Theorem keypairToAuth_characterised (key secret : ustring) :
  Forall (fun c => (c < 65536)%N) (key ++ lit ":" ++ secret) →
  keypairToAuth key secret
  = if well_formed (key ++ lit ":" ++ secret)
    then Ok (lit "Basic "
             ++ base64 (Buffer_from (Buffer_from (key ++ lit ":" ++ secret))))
    else Throw URIError.
Proof.
  intros Hunits. unfold keypairToAuth.
  pose proof (encodeURIComponent_well_formed (key ++ lit ":" ++ secret)) as Hwf.
  destruct (encodeURIComponent _) as [escaped|e] eqn:Hescaped.
  - rewrite Hwf. cbn [mbind result_bind].
    by rewrite (unescape_encodeURIComponent _ _ Hunits Hescaped).
  - by destruct Hwf as [-> ->].
Qed.

Lemma base64_digit_unit n : base64_unit (base64_digit n) = true.
Proof.
  unfold base64_unit, base64_digit.
  repeat match goal with
         | |- context [(?a <? ?b)%N] => destruct (N.ltb_spec a b)
         | |- context [(?a =? ?b)%N] => destruct (N.eqb_spec a b)
         end;
    rewrite ?orb_true_iff, ?andb_true_iff, ?N.leb_le, ?bool_decide_eq_true;
    try (left; left; left; lia); try (left; left; right; lia);
    try (left; right; lia); right.
  - apply elem_of_cons. by left.
  - apply elem_of_cons. right. apply elem_of_cons. by left.
Qed.

Lemma base64_text octets :
  forallb base64_unit (base64 octets) = true
  ∧ List.length (base64 octets) = 4 * ((List.length octets + 2) / 3).
Proof.
  remember (List.length octets) as n eqn:Hn. revert octets Hn.
  induction (lt_wf n) as [n _ IH]. intros [|a [|b [|c rest]]] ->.
  - done.
  - simpl. by rewrite !base64_digit_unit.
  - simpl. by rewrite !base64_digit_unit.
  - destruct (IH (List.length rest)) with (octets := rest) as [Hunits Hlength];
      [simpl; lia|done|].
    cbn [base64]. rewrite forallb_app, Hunits, length_app, Hlength. split.
    + cbn [forallb]. by rewrite !base64_digit_unit.
    + cbn [List.length].
      replace (S (S (S (List.length rest))) + 2)
        with (1 * 3 + (List.length rest + 2)) by lia.
      rewrite Nat.div_add_l by done. lia.
Qed.

(** X20.  Whatever the key and the secret, a returned authorization value
    is [Basic ] followed by base64 text: letters, digits, [+], [/] and
    the padding [=], in a number that is a multiple of four. *)
Theorem keypairToAuth_text (key secret auth : ustring) :
  keypairToAuth key secret = Ok auth →
  ∃ text, auth = lit "Basic " ++ text
    ∧ forallb base64_unit text = true
    ∧ List.length text mod 4 = 0.
Proof.
  unfold keypairToAuth.
  destruct (encodeURIComponent _) as [escaped|]; cbn [mbind result_bind]; [|done].
  intros [= <-]. eexists. split; [done|].
  destruct (base64_text (Buffer_from (unescape escaped))) as [-> ->].
  split; [done|]. rewrite (Nat.mul_comm 4). apply Nat.Div0.mod_mul.
Qed.

(** *** base64 is injective on octets *)

Lemma base64_value_digit n : (n < 64)%N → base64_value (base64_digit n) = Some n.
Proof.
  revert n. apply (below_cases _ 64).
  eapply bool_decide_unpack. vm_compute. exact I.
Qed.

Lemma base64_digit_inj n m :
  (n < 64)%N → (m < 64)%N → base64_digit n = base64_digit m → n = m.
Proof.
  intros Hn Hm Heq. apply (f_equal base64_value) in Heq.
  rewrite !base64_value_digit in Heq by done. by injection Heq.
Qed.

Lemma base64_digit_not_pad n : base64_digit n ≠ 61%N.
Proof.
  unfold base64_digit.
  repeat match goal with
         | |- context [(?a <? ?b)%N] => destruct (N.ltb_spec a b)
         | |- context [(?a =? ?b)%N] => destruct (N.eqb_spec a b)
         end; lia.
Qed.

Lemma div_mod_inj (a a' k : N) :
  (a / k = a' / k → a mod k = a' mod k → a = a')%N.
Proof.
  intros Hdiv Hmod.
  rewrite (N.Div0.div_mod a k), (N.Div0.div_mod a' k). congruence.
Qed.

Lemma radix_inj (k x y x' y' : N) :
  (y < k → y' < k → x * k + y = x' * k + y' → x = x' ∧ y = y')%N.
Proof.
  intros Hy Hy' Heq.
  assert (x = (x * k + y) / k)%N as Hx
    by (rewrite N.div_add_l, N.div_small by lia; lia).
  assert (x' = (x' * k + y') / k)%N as Hx'
    by (rewrite N.div_add_l, N.div_small by lia; lia).
  rewrite Heq, <-Hx' in Hx. subst x'. split; [done|lia].
Qed.

(** The four digits of three octets, and the octets they determine. *)
Lemma octet_digits (a b c : N) :
  (a < 256 → b < 256 → c < 256 →
   a / 4 < 64 ∧ a mod 4 * 16 + b / 16 < 64
   ∧ b mod 16 * 4 + c / 64 < 64 ∧ c mod 64 < 64)%N.
Proof.
  intros Ha Hb Hc.
  assert (a / 4 < 64)%N by (apply N.Div0.div_lt_upper_bound; lia).
  assert (b / 16 < 16)%N by (apply N.Div0.div_lt_upper_bound; lia).
  assert (c / 64 < 4)%N by (apply N.Div0.div_lt_upper_bound; lia).
  pose proof (N.mod_upper_bound a 4). pose proof (N.mod_upper_bound b 16).
  pose proof (N.mod_upper_bound c 64). lia.
Qed.

Lemma octets_of_digits (a b c a' b' c' : N) :
  (a < 256 → b < 256 → c < 256 → a' < 256 → b' < 256 → c' < 256 →
   a / 4 = a' / 4 →
   a mod 4 * 16 + b / 16 = a' mod 4 * 16 + b' / 16 →
   b mod 16 * 4 + c / 64 = b' mod 16 * 4 + c' / 64 →
   c mod 64 = c' mod 64 →
   a = a' ∧ b = b' ∧ c = c')%N.
Proof.
  intros Ha Hb Hc Ha' Hb' Hc' H1 H2 H3 H4.
  apply radix_inj in H2 as [H2 H2'];
    [|apply N.Div0.div_lt_upper_bound; lia..].
  apply radix_inj in H3 as [H3 H3'];
    [|apply N.Div0.div_lt_upper_bound; lia..].
  repeat split; eapply div_mod_inj; eassumption.
Qed.

Lemma base64_one_inj (a a' : N) :
  (a < 256)%N → (a' < 256)%N →
  base64_digit (a / 4) = base64_digit (a' / 4) →
  base64_digit (a mod 4 * 16) = base64_digit (a' mod 4 * 16) →
  a = a'.
Proof.
  intros Ha Ha' H1 H2.
  destruct (octet_digits a 0 0) as (?&?&_); [done..|].
  destruct (octet_digits a' 0 0) as (?&?&_); [done..|].
  rewrite !N.add_0_r in *.
  apply base64_digit_inj in H1, H2; [|done..].
  apply N.mul_cancel_r in H2; [|done]. by eapply div_mod_inj.
Qed.

Lemma base64_two_inj (a b a' b' : N) :
  (a < 256)%N → (b < 256)%N → (a' < 256)%N → (b' < 256)%N →
  base64_digit (a / 4) = base64_digit (a' / 4) →
  base64_digit (a mod 4 * 16 + b / 16) = base64_digit (a' mod 4 * 16 + b' / 16) →
  base64_digit (b mod 16 * 4) = base64_digit (b' mod 16 * 4) →
  a = a' ∧ b = b'.
Proof.
  intros Ha Hb Ha' Hb' H1 H2 H3.
  destruct (octet_digits a b 0) as (?&?&?&_); [done..|].
  destruct (octet_digits a' b' 0) as (?&?&?&_); [done..|].
  rewrite !N.add_0_r in *.
  apply base64_digit_inj in H1, H2, H3; [|done..].
  apply N.mul_cancel_r in H3; [|done].
  apply radix_inj in H2 as [H2 H2'];
    [|apply N.Div0.div_lt_upper_bound; lia..].
  split; eapply div_mod_inj; eassumption.
Qed.

Lemma base64_three_inj (a b c a' b' c' : N) :
  (a < 256)%N → (b < 256)%N → (c < 256)%N →
  (a' < 256)%N → (b' < 256)%N → (c' < 256)%N →
  base64_digit (a / 4) = base64_digit (a' / 4) →
  base64_digit (a mod 4 * 16 + b / 16) = base64_digit (a' mod 4 * 16 + b' / 16) →
  base64_digit (b mod 16 * 4 + c / 64) = base64_digit (b' mod 16 * 4 + c' / 64) →
  base64_digit (c mod 64) = base64_digit (c' mod 64) →
  a = a' ∧ b = b' ∧ c = c'.
Proof.
  intros Ha Hb Hc Ha' Hb' Hc' H1 H2 H3 H4.
  destruct (octet_digits a b c) as (?&?&?&?); [done..|].
  destruct (octet_digits a' b' c') as (?&?&?&?); [done..|].
  apply base64_digit_inj in H1, H2, H3, H4; [|done..].
  by apply octets_of_digits.
Qed.

Ltac pad_absurd :=
  match goal with
  | Hpad : 61%N = base64_digit _ |- _ =>
      symmetry in Hpad; by apply base64_digit_not_pad in Hpad
  | Hpad : base64_digit _ = 61%N |- _ => by apply base64_digit_not_pad in Hpad
  end.

Lemma base64_inj octets octets' :
  Forall (fun b => (b < 256)%N) octets → Forall (fun b => (b < 256)%N) octets' →
  base64 octets = base64 octets' → octets = octets'.
Proof.
  remember (List.length octets) as n eqn:Hn. revert octets octets' Hn.
  induction (lt_wf n) as [n _ IH].
  intros [|a [|b [|c rest]]] [|a' [|b' [|c' rest']]] -> Hoctets Hoctets';
    repeat match goal with
           | Hall : Forall _ (_ :: _) |- _ => apply Forall_cons in Hall as [??]
           end;
    cbn [base64 app]; intros Heq; try discriminate;
    try (injection Heq; clear Heq; intros); try pad_absurd.
  - done.
  - f_equal. by apply base64_one_inj.
  - destruct (base64_two_inj a b a' b') as [-> ->]; done.
  - destruct (base64_three_inj a b c a' b' c') as (-> & -> & ->); [done..|].
    do 3 f_equal. eapply IH; [|done..]. simpl. lia.
Qed.

(** X21.  For keys and secrets of ASCII characters the authorization value
    determines the string [key:secret]: two credentials get the same value
    only when [key:secret] is the same string for both. *)
Theorem keypairToAuth_ascii_inj (key secret key' secret' : ustring) :
  Forall (fun c => (c < 128)%N) key → Forall (fun c => (c < 128)%N) secret →
  Forall (fun c => (c < 128)%N) key' → Forall (fun c => (c < 128)%N) secret' →
  keypairToAuth key secret = keypairToAuth key' secret' →
  key ++ lit ":" ++ secret = key' ++ lit ":" ++ secret'.
Proof.
  intros Hkey Hsecret Hkey' Hsecret'.
  assert (∀ k s : ustring, Forall (fun c => (c < 128)%N) k →
    Forall (fun c => (c < 128)%N) s →
    Forall (fun c => (c < 128)%N) (k ++ lit ":" ++ s)) as Hjoined.
  { intros k s Hk Hs. apply Forall_app. split; [done|].
    apply Forall_app. split; [|done]. repeat constructor. }
  rewrite !keypairToAuth_ascii by done. unfold basic_auth_spec.
  rewrite !Buffer_from_ascii by auto.
  intros [= Heq]. apply base64_inj in Heq; [exact Heq|..].
  - eapply Forall_impl; [exact (Hjoined key secret Hkey Hsecret)|].
    intros c Hc. simpl in Hc. lia.
  - eapply Forall_impl; [exact (Hjoined key' secret' Hkey' Hsecret')|].
    intros c Hc. simpl in Hc. lia.
Qed.

(** * Properties of the run *)

Lemma io_bind_ok {A B} (tr : list event) (a : A) (f : A → io B) :
  IO tr (Ok a) ≫= f = IO (tr ++ trace (f a)) (outcome (f a)).
Proof. done. Qed.

Lemma io_bind_throw {A B} (tr : list event) e (f : A → io B) :
  IO tr (Throw e) ≫= f = IO tr (Throw e).
Proof. done. Qed.

Lemma settle_bind_ok {A B} (a : A) (f : A → io B) : settle (Ok a) ≫= f = f a.
Proof. unfold settle. rewrite io_bind_ok. by destruct (f a). Qed.

Lemma settle_bind_throw {A B} e (f : A → io B) :
  settle (Throw e) ≫= f = IO [] (Throw e).
Proof. done. Qed.

Section RunProperties.
Context `{JSNumber number}.
Variable fs_readFile : ustring → result ustring.
Variable JSON_parse : ustring → result (value number).
Variable fetch : request → result (response (number:=number)).
Variable JSON_stringify : value number → ustring.

Implicit Types (options : program) (e : error) (r : request).
Implicit Types (keyFileData experimentInfo cartData : value number).

Lemma readKeyfile_settles path :
  readKeyfile fs_readFile JSON_parse path
  = IO [ReadFile path] (fs_readFile path ≫= JSON_parse).
Proof.
  unfold readKeyfile, readFile. by destruct (fs_readFile path).
Qed.

Lemma readExperimentsFile_settles path :
  readExperimentsFile fs_readFile JSON_parse path
  = IO [ReadFile path] (fs_readFile path ≫= JSON_parse).
Proof. apply readKeyfile_settles. Qed.

(** X22.  When the key file cannot be read or parsed, the run is rejected
    with that error after reading the key file only: the experiment file
    is not read and no request is made. *)
Theorem run_keyfile_failure options e :
  fs_readFile (program_keyfile options) ≫= JSON_parse = Throw e →
  run fs_readFile JSON_parse fetch JSON_stringify options
  = IO [ReadFile (program_keyfile options)] (Throw e).
Proof.
  intros Hkeyfile. unfold run, cartDataPromise.
  by rewrite (readKeyfile_settles (program_keyfile options)), Hkeyfile,
    !io_bind_throw.
Qed.

(** The run, step by step: the two reads, the arguments of the request,
    the request, the tally. *)
Lemma run_steps options :
  run fs_readFile JSON_parse fetch JSON_stringify options
  = match fs_readFile (program_keyfile options) ≫= JSON_parse with
    | Throw e => IO [ReadFile (program_keyfile options)] (Throw e)
    | Ok keyFileData =>
        let reads := [ReadFile (program_keyfile options);
                      ReadFile (program_experiments options)] in
        match fs_readFile (program_experiments options) ≫= JSON_parse with
        | Throw e => IO reads (Throw e)
        | Ok experimentInfo =>
            match cartQuery_arguments keyFileData experimentInfo
                    (program_key options) with
            | Throw e => IO reads (Throw e)
            | Ok args =>
                match arg_fields args with
                | VArray l =>
                    let settled :=
                      cartQuery fetch JSON_stringify (arg_experiments args)
                        (to_string <$> l) (to_string (arg_server args))
                        (arg_auth args) in
                    IO (reads
                        ++ Fetch (cartQuery_request JSON_stringify
                                    (arg_experiments args) (to_string <$> l)
                                    (to_string (arg_server args)) (arg_auth args))
                        :: (LogError <$> settled.2))
                       (filePropCounts_of settled.1 (arg_fields args))
                | _ => IO reads (Throw TypeError)
                end
            end
        end
    end.
Proof.
  unfold run, cartDataPromise.
  rewrite (readKeyfile_settles (program_keyfile options)).
  destruct (fs_readFile (program_keyfile options) ≫= JSON_parse)
    as [keyFileData|]; [|done].
  rewrite io_bind_ok, (readExperimentsFile_settles (program_experiments options)).
  destruct (fs_readFile (program_experiments options) ≫= JSON_parse)
    as [experimentInfo|]; [|done].
  rewrite io_bind_ok.
  destruct (cartQuery_arguments keyFileData experimentInfo (program_key options))
    as [args|]; [|done].
  rewrite settle_bind_ok. unfold cartQuery_call.
  destruct (arg_fields args) eqn:Hfields; try done.
  rewrite io_bind_ok. unfold mret, io_ret, settle. cbn [trace outcome].
  rewrite !io_bind_ok. cbn [trace outcome fst snd].
  by rewrite ?app_nil_r, <-?app_assoc.
Qed.


Lemma cartQuery_log experiments fields host auth :
  (cartQuery fetch JSON_stringify experiments fields host auth).2 = []
  ∨ ∃ e, (cartQuery fetch JSON_stringify experiments fields host auth).2 = [e].
Proof.
  unfold cartQuery. destruct (fetch _) as [response|]; simpl; [|eauto].
  destruct (ok response); [|eauto]. destruct (json response); eauto.
Qed.

(** X24.  Every run reads the key file first; it reads the experiment
    file only after that, makes at most one request, only after the two
    reads, and logs at most one error, only after the request. *)
Theorem run_trace options :
  let keyfile := ReadFile (program_keyfile options) in
  let experiments := ReadFile (program_experiments options) in
  let done := trace (run fs_readFile JSON_parse fetch JSON_stringify options) in
  done = [keyfile]
  ∨ done = [keyfile; experiments]
  ∨ (∃ r, done = [keyfile; experiments; Fetch r])
  ∨ (∃ r e, done = [keyfile; experiments; Fetch r; LogError e]).
Proof.
  intros keyfile experiments done. subst done. rewrite run_steps.
  destruct (fs_readFile (program_keyfile options) ≫= JSON_parse)
    as [keyFileData|]; [|by left].
  destruct (fs_readFile (program_experiments options) ≫= JSON_parse)
    as [experimentInfo|]; [|by right; left].
  destruct (cartQuery_arguments _ _ _) as [args|]; [|by right; left].
  destruct (arg_fields args) as [| | | | |l|]; try by right; left.
  right. right. cbn [trace].
  destruct (cartQuery_log (arg_experiments args) (to_string <$> l)
    (to_string (arg_server args)) (arg_auth args)) as [->|[e ->]]; eauto.
Qed.

Lemma forEach_strings (file : value number) (names : list ustring) (t : table) :
  forEach (VString <$> names) (countValueField file) t
  = forEach names (countField file) t.
Proof.
  revert t. induction names as [|name names IH]; intros t; [done|].
  rewrite fmap_cons. cbn [forEach countValueField].
  destruct (countField file name t); simpl; [apply IH|done].
Qed.

Lemma filePropCounts_of_strings cartData (names : list ustring) :
  filePropCounts_of cartData (VArray (VString <$> names))
  = filePropCountPromise cartData names.
Proof.
  unfold filePropCounts_of, filePropCountPromise, tally.
  destruct (collectFiles cartData) as [files|]; simpl; [|done].
  apply forEach_ext. intros file t. apply forEach_strings.
Qed.

Lemma to_string_strings (names : list ustring) :
  to_string <$> (VString <$> names : list (value number)) = names.
Proof. induction names as [|name names IH]; [done|]. rewrite !fmap_cons. by rewrite IH. Qed.

(** The arguments read from a key file with a complete entry and an
    experiment file with a list of field names. *)
Lemma cartQuery_arguments_complete entries entry info key
    (keyValue secret server auth : ustring) (names : list ustring) :
  entries !! key = Some (VObject entry) →
  entry !! lit "key" = Some (VString keyValue) →
  entry !! lit "secret" = Some (VString secret) →
  entry !! lit "server" = Some (VString server) →
  info !! lit "fields" = Some (VArray (VString <$> names)) →
  keypairToAuth keyValue secret = Ok auth →
  cartQuery_arguments (VObject entries) (VObject info) key
  = Ok {| arg_experiments := default VUndefined (info !! lit "experiments");
          arg_fields := VArray (VString <$> names);
          arg_server := VString server; arg_auth := auth |}.
Proof.
  intros Hentry Hkey Hsecret Hserver Hfields Hauth. unfold cartQuery_arguments.
  cbn [get]. rewrite Hentry. cbn [mbind result_bind default from_option id get].
  rewrite Hkey, Hsecret, Hserver, Hfields.
  cbn [mbind result_bind default from_option id to_string].
  by rewrite Hauth.
Qed.

(** X25.  A run on a key file with a complete entry and an experiment
    file with a list of field names, answered with an OK response that
    holds an array of experiment records: it reads the two files, makes
    the one request of [cartQuery] with the authorization value of the
    entry, logs nothing, and returns the tally of the files the
    experiments list. *)
Theorem run_success options entries entry info
    (keyValue secret server auth : ustring) (names : list ustring)
    response cartData experiments :
  let request :=
    cartQuery_request JSON_stringify (default VUndefined (info !! lit "experiments"))
      names server auth in
  fs_readFile (program_keyfile options) ≫= JSON_parse = Ok (VObject entries) →
  fs_readFile (program_experiments options) ≫= JSON_parse = Ok (VObject info) →
  entries !! program_key options = Some (VObject entry) →
  entry !! lit "key" = Some (VString keyValue) →
  entry !! lit "secret" = Some (VString secret) →
  entry !! lit "server" = Some (VString server) →
  info !! lit "fields" = Some (VArray (VString <$> names)) →
  keypairToAuth keyValue secret = Ok auth →
  fetch request = Ok response → ok response = true → json response = Ok cartData →
  get cartData (lit "@graph") = Ok (VArray experiments) →
  Forall experiment_record experiments →
  run fs_readFile JSON_parse fetch JSON_stringify options
  = IO [ReadFile (program_keyfile options); ReadFile (program_experiments options);
        Fetch request]
       (tally (experiments ≫= listed_files) names).
Proof.
  intros request Hkeyfile Hexperiments Hentry Hkey Hsecret Hserver Hfields Hauth
    Hfetch Hok Hjson Hgraph Hrecords.
  rewrite run_steps, Hkeyfile, Hexperiments.
  rewrite (cartQuery_arguments_complete _ _ _ _ _ _ _ _ _
    Hentry Hkey Hsecret Hserver Hfields Hauth).
  cbn [arg_fields arg_experiments arg_server arg_auth to_string].
  rewrite to_string_strings, filePropCounts_of_strings.
  unfold cartQuery. fold request. rewrite Hfetch. cbn [mbind result_bind].
  rewrite Hok, Hjson. cbn [fst snd fmap list_fmap app]. f_equal.
  unfold filePropCountPromise.
  by rewrite (collectFiles_records _ _ Hgraph Hrecords).
Qed.

(** X26.  The same run when the search fails, the response not OK or
    [fetch] rejected: after the request it logs one error, and it is then
    rejected with a [TypeError]; no table is returned. *)
Theorem run_failed_search options entries entry info
    (keyValue secret server auth : ustring) (names : list ustring) :
  let request :=
    cartQuery_request JSON_stringify (default VUndefined (info !! lit "experiments"))
      names server auth in
  fs_readFile (program_keyfile options) ≫= JSON_parse = Ok (VObject entries) →
  fs_readFile (program_experiments options) ≫= JSON_parse = Ok (VObject info) →
  entries !! program_key options = Some (VObject entry) →
  entry !! lit "key" = Some (VString keyValue) →
  entry !! lit "secret" = Some (VString secret) →
  entry !! lit "server" = Some (VString server) →
  info !! lit "fields" = Some (VArray (VString <$> names)) →
  keypairToAuth keyValue secret = Ok auth →
  (∀ response, fetch request = Ok response → ok response = false) →
  ∃ e, run fs_readFile JSON_parse fetch JSON_stringify options
       = IO [ReadFile (program_keyfile options);
             ReadFile (program_experiments options); Fetch request; LogError e]
            (Throw TypeError).
Proof.
  intros request Hkeyfile Hexperiments Hentry Hkey Hsecret Hserver Hfields Hauth
    Hfailed.
  rewrite run_steps, Hkeyfile, Hexperiments.
  rewrite (cartQuery_arguments_complete _ _ _ _ _ _ _ _ _
    Hentry Hkey Hsecret Hserver Hfields Hauth).
  cbn [arg_fields arg_experiments arg_server arg_auth to_string].
  rewrite to_string_strings, filePropCounts_of_strings.
  unfold cartQuery. fold request.
  destruct (fetch request) as [response|e] eqn:Hfetch; cbn [mbind result_bind].
  - rewrite (Hfailed response) by done. by exists Error.
  - by exists e.
Qed.


End RunProperties.

(** * The further properties on concrete runs *)



Lemma getObjectFieldValue_array_element_witness :
  let l : list jsvalue := [VString (lit "x"); VString (lit "y")] in
  let props : gmap ustring jsvalue := {[lit "a" := VArray l]} in
  (dot ∉ lit "a") ∧ props !! lit "a" = Some (VArray l)
  ∧ getObjectFieldValue (VObject props) (lit "a" ++ dot :: index_name 1)
    = Ok (default VUndefined (l !! 1)).
Proof.
  intros l props.
  assert (dot ∉ lit "a") as Hdot
    by (eapply bool_decide_unpack; vm_compute; exact I).
  assert (props !! lit "a" = Some (VArray l)) as Hprops by (vm_compute; reflexivity).
  split; [exact Hdot|]. split; [exact Hprops|].
  exact (getObjectFieldValue_array_element props (lit "a") l 1 Hdot Hprops).
Defined.





Lemma sample_experiment_records : Forall experiment_record sample_experiments.
Proof.
  unfold sample_experiments. repeat constructor.
  - eexists. split; [reflexivity|]. right. eexists. vm_compute. reflexivity.
  - eexists. split; [reflexivity|]. left. vm_compute. reflexivity.
  - eexists. split; [reflexivity|]. right. eexists. vm_compute. reflexivity.
Defined.

Lemma filePropCountPromise_records_witness :
  get sample_cartData (lit "@graph") = Ok (VArray sample_experiments)
  ∧ Forall experiment_record sample_experiments
  ∧ collectFiles sample_cartData = Ok (sample_experiments ≫= listed_files)
  ∧ filePropCountPromise sample_cartData [lit "file_format"]
    = tally (sample_experiments ≫= listed_files) [lit "file_format"].
Proof.
  assert (get sample_cartData (lit "@graph") = Ok (VArray sample_experiments))
    as Hgraph by (vm_compute; reflexivity).
  split; [exact Hgraph|]. split; [exact sample_experiment_records|].
  exact (filePropCountPromise_records sample_cartData sample_experiments
    [lit "file_format"] Hgraph sample_experiment_records).
Defined.

Lemma filePropCountPromise_no_graph_witness :
  let cartData : jsvalue := VObject {[lit "error" := VString (lit "denied")]} in
  get cartData (lit "@graph") = Ok VUndefined
  ∧ (∀ l, (VUndefined : jsvalue) ≠ VArray l)
  ∧ filePropCountPromise cartData [lit "file_format"] = Throw TypeError.
Proof.
  intros cartData.
  assert (get cartData (lit "@graph") = Ok VUndefined) as Hgraph
    by (vm_compute; reflexivity).
  assert (∀ l, (VUndefined : jsvalue) ≠ VArray l) as Hnot by discriminate.
  split; [exact Hgraph|]. split; [exact Hnot|].
  exact (filePropCountPromise_no_graph cartData VUndefined [lit "file_format"]
    Hgraph Hnot).
Defined.

Lemma filePropCountPromise_null_experiment_witness :
  let experiments : list jsvalue := [VObject ∅; VNull] in
  let cartData : jsvalue := VObject {[lit "@graph" := VArray experiments]} in
  get cartData (lit "@graph") = Ok (VArray experiments)
  ∧ VNull ∈ experiments
  ∧ filePropCountPromise cartData [lit "file_format"] = Throw TypeError.
Proof.
  intros experiments cartData.
  assert (get cartData (lit "@graph") = Ok (VArray experiments)) as Hgraph
    by (vm_compute; reflexivity).
  assert (VNull ∈ experiments) as Hnull by (right; left).
  split; [exact Hgraph|]. split; [exact Hnull|].
  exact (filePropCountPromise_null_experiment cartData experiments
    [lit "file_format"] Hgraph Hnull).
Defined.


Lemma ascii_user : Forall (fun c => (c < 128)%N) (lit "user").
Proof. eapply bool_decide_unpack. vm_compute. exact I. Defined.

Lemma ascii_pass : Forall (fun c => (c < 128)%N) (lit "pass").
Proof. eapply bool_decide_unpack. vm_compute. exact I. Defined.

Lemma keypairToAuth_ascii_credentials_witness :
  Forall (fun c => (c < 128)%N) (lit "user")
  ∧ Forall (fun c => (c < 128)%N) (lit "pass")
  ∧ keypairToAuth (lit "user") (lit "pass")
    = Ok (lit "Basic " ++ base64 (lit "user" ++ lit ":" ++ lit "pass")).
Proof.
  split; [exact ascii_user|]. split; [exact ascii_pass|].
  exact (keypairToAuth_ascii_credentials (lit "user") (lit "pass")
    ascii_user ascii_pass).
Defined.

Lemma keypairToAuth_characterised_witness :
  Forall (fun c => (c < 65536)%N) ([233%N] ++ lit ":" ++ [])
  ∧ keypairToAuth [233%N] []
    = if well_formed ([233%N] ++ lit ":" ++ [])
      then Ok (lit "Basic "
               ++ base64 (Buffer_from (Buffer_from ([233%N] ++ lit ":" ++ []))))
      else Throw URIError.
Proof.
  assert (Forall (fun c => (c < 65536)%N) ([233%N] ++ lit ":" ++ [])) as Hunits
    by (eapply bool_decide_unpack; vm_compute; exact I).
  split; [exact Hunits|]. exact (keypairToAuth_characterised [233%N] [] Hunits).
Defined.

Lemma keypairToAuth_text_witness :
  keypairToAuth (lit "user") (lit "pass") = Ok (lit "Basic dXNlcjpwYXNz")
  ∧ ∃ text, lit "Basic dXNlcjpwYXNz" = lit "Basic " ++ text
      ∧ forallb base64_unit text = true
      ∧ List.length text mod 4 = 0.
Proof.
  assert (keypairToAuth (lit "user") (lit "pass") = Ok (lit "Basic dXNlcjpwYXNz"))
    as Hauth by (vm_compute; reflexivity).
  split; [exact Hauth|].
  exact (keypairToAuth_text (lit "user") (lit "pass") _ Hauth).
Defined.

Lemma keypairToAuth_ascii_inj_witness :
  keypairToAuth (lit "a:b") (lit "c") = keypairToAuth (lit "a") (lit "b:c")
  ∧ lit "a:b" ++ lit ":" ++ lit "c" = lit "a" ++ lit ":" ++ lit "b:c".
Proof.
  assert (keypairToAuth (lit "a:b") (lit "c") = keypairToAuth (lit "a") (lit "b:c"))
    as Hauth by (vm_compute; reflexivity).
  split; [exact Hauth|].
  refine (keypairToAuth_ascii_inj (lit "a:b") (lit "c") (lit "a") (lit "b:c")
    _ _ _ _ Hauth); eapply bool_decide_unpack; vm_compute; exact I.
Defined.

Lemma run_keyfile_failure_witness :
  let no_fs : ustring → result ustring := fun _ => Throw Error in
  no_fs (program_keyfile default_program) ≫= sample_parse = Throw Error
  ∧ run no_fs sample_parse sample_fetch sample_stringify default_program
    = IO [ReadFile (program_keyfile default_program)] (Throw Error).
Proof.
  intros no_fs.
  assert (no_fs (program_keyfile default_program) ≫= sample_parse = Throw Error)
    as Hkeyfile by reflexivity.
  split; [exact Hkeyfile|].
  exact (run_keyfile_failure no_fs sample_parse sample_fetch sample_stringify
    default_program Error Hkeyfile).
Defined.


Lemma run_success_witness :
  let request :=
    cartQuery_request sample_stringify
      (VArray [VString (lit "/experiments/ENCSR000AAA/")])
      [lit "file_format"; lit "lab.title"] (lit "http://localhost:6543")
      (lit "Basic dXNlcjpwYXNz") in
  run sample_fs sample_parse sample_fetch sample_stringify default_program
  = IO [ReadFile (lit "keypairs.json"); ReadFile (lit "experiments.json");
        Fetch request]
       (tally (sample_experiments ≫= listed_files)
          [lit "file_format"; lit "lab.title"])
  ∧ tally (sample_experiments ≫= listed_files) [lit "file_format"; lit "lab.title"]
    = Ok {[lit "file_format" := {[lit "bam" := 2; lit "fastq" := 1]};
           lit "lab.title" := {[lit "A" := 2; lit "B" := 1]}]}.
Proof.
  intros request. split; [|vm_compute; reflexivity].
  refine (run_success sample_fs sample_parse sample_fetch sample_stringify
    default_program _ _ _ (lit "user") (lit "pass") (lit "http://localhost:6543")
    (lit "Basic dXNlcjpwYXNz") [lit "file_format"; lit "lab.title"]
    {| ok := true; json := Ok sample_cartData |} sample_cartData sample_experiments
    _ _ _ _ _ _ _ _ _ _ _ _ sample_experiment_records);
    try (vm_compute; reflexivity).
Defined.

Lemma run_failed_search_witness :
  let request :=
    cartQuery_request sample_stringify
      (VArray [VString (lit "/experiments/ENCSR000AAA/")])
      [lit "file_format"; lit "lab.title"] (lit "http://localhost:6543")
      (lit "Basic dXNlcjpwYXNz") in
  ∃ e, run sample_fs sample_parse failing_fetch sample_stringify default_program
       = IO [ReadFile (lit "keypairs.json"); ReadFile (lit "experiments.json");
             Fetch request; LogError e]
            (Throw TypeError).
Proof.
  intros request.
  refine (run_failed_search sample_fs sample_parse failing_fetch sample_stringify
    default_program _ _ _ (lit "user") (lit "pass") (lit "http://localhost:6543")
    (lit "Basic dXNlcjpwYXNz") [lit "file_format"; lit "lab.title"]
    _ _ _ _ _ _ _ _ _);
    try (vm_compute; reflexivity).
  intros response [= <-]. reflexivity.
Defined.

